(** * TerminalCrawler: the crawl frontier, the work queue and the control plane

    A shallow embedding of [src/db.py] (class [CrawlerDB]) and of
    [src/crawler.py] (class [Crawler]), followed by the properties of the
    frontier state machine.

    Modelling conventions.
    - A Python [str] is a [string]; a character stands for a code point
      below 256.
    - The SQLite table [urls] is the list of its rows in [id] order.
    - [datetime.utcnow()] is an input: every operation that stamps a row
      receives the clock reading [now].
    - [print] appends a structured line to the terminal output of the
      crawler state; the rotating log file is not modelled.
    - The libraries the crawler calls (requests, BeautifulSoup, urllib,
      gzip, ElementTree) are not re-implemented: what they return, or the
      exception they raise, is an input.
    - The database file and the content sink are taken to be writable:
      no operation on them raises. [LIKE] is SQLite's operator on the
      patterns it accepts, those of at most 50000 bytes. *)

From Stdlib Require Import ZArith List Bool Ascii String Lia Permutation.
From Stdlib Require Import Sorting.Sorted.
From Stdlib Require Import Numbers.DecimalString.
Import ListNotations.

Local Open Scope string_scope.
Local Open Scope list_scope.
Local Open Scope Z_scope.

(* ================================================================== *)
(** ** Python and SQLite string primitives *)
(* ================================================================== *)

Module Str.

(** [c.isspace()] for code points below 256: TAB LF VT FF CR, FS GS RS US,
    SPACE, NEL and NBSP. *)
Definition isspace (c : ascii) : bool :=
  let n := nat_of_ascii c in
  ((9 <=? n) && (n <=? 13))%nat || ((28 <=? n) && (n <=? 32))%nat
  || (n =? 133)%nat || (n =? 160)%nat.

(** [s.lstrip()] *)
Fixpoint lstrip (s : string) : string :=
  match s with
  | EmptyString => EmptyString
  | String c s' => if isspace c then lstrip s' else s
  end.

(** [s.rstrip()] *)
Fixpoint rstrip (s : string) : string :=
  match s with
  | EmptyString => EmptyString
  | String c s' =>
      match rstrip s' with
      | EmptyString => if isspace c then EmptyString else String c EmptyString
      | t => String c t
      end
  end.

(** [s.strip()] *)
Definition strip (s : string) : string := rstrip (lstrip s).

(** [s.startswith(p)] *)
Fixpoint startswith (s p : string) {struct p} : bool :=
  match p, s with
  | EmptyString, _ => true
  | String _ _, EmptyString => false
  | String a p', String b s' => Ascii.eqb a b && startswith s' p'
  end.

(** [s.endswith(p)] *)
Fixpoint endswith (s p : string) : bool :=
  String.eqb s p ||
  match s with
  | EmptyString => false
  | String _ s' => endswith s' p
  end.

(** [sub in s] *)
Fixpoint contains (s sub : string) : bool :=
  startswith s sub ||
  match s with
  | EmptyString => false
  | String _ s' => contains s' sub
  end.

(** [c.lower()] for code points below 256: A-Z and the Latin-1 capitals. *)
Definition lower_char (c : ascii) : ascii :=
  let n := nat_of_ascii c in
  if ((65 <=? n) && (n <=? 90))%nat
     || ((192 <=? n) && (n <=? 222) && negb (n =? 215))%nat
  then ascii_of_nat (n + 32) else c.

(** [s.lower()] *)
Fixpoint lower (s : string) : string :=
  match s with
  | EmptyString => EmptyString
  | String c s' => String (lower_char c) (lower s')
  end.

(** [s[n:]] *)
Fixpoint drop (n : nat) (s : string) : string :=
  match n, s with
  | O, _ => s
  | S _, EmptyString => EmptyString
  | S n', String _ s' => drop n' s'
  end.

(** [s[:n]] *)
Fixpoint take (n : nat) (s : string) : string :=
  match n, s with
  | O, _ => EmptyString
  | S _, EmptyString => EmptyString
  | S n', String c s' => String c (take n' s')
  end.

(** [str(n)] for an integer. *)
Definition of_Z (n : Z) : string := NilEmpty.string_of_int (Z.to_int n).

(** SQLite folds case in [LIKE] for the 26 ASCII letters only. *)
Definition sql_fold (c : ascii) : ascii :=
  let n := nat_of_ascii c in
  if ((65 <=? n) && (n <=? 90))%nat then ascii_of_nat (n + 32) else c.

(** [f] holds of [t] or of one of its proper suffixes: what is left to
    match after [%] has taken some run of characters. *)
Fixpoint any_suffix (f : string -> bool) (t : string) : bool :=
  f t ||
  match t with
  | EmptyString => false
  | String _ t' => any_suffix f t'
  end.

(** What SQLite's matcher sees of an operand of [LIKE]: it reads the
    value as a C string, so nothing from the first NUL character on. *)
Fixpoint c_string (s : string) : string :=
  match s with
  | EmptyString => EmptyString
  | String a s' =>
      if Ascii.eqb a Ascii.zero then EmptyString else String a (c_string s')
  end.

(** SQLite's [patternCompare] with the defaults of [LIKE] (no ESCAPE
    clause, case folding on): [%] matches any run of characters, [_]
    matches exactly one character, any other character matches itself up
    to ASCII case. *)
Fixpoint like_chars (pat s : string) : bool :=
  match pat with
  | EmptyString =>
      match s with EmptyString => true | String _ _ => false end
  | String p pat' =>
      if Ascii.eqb p "%"%char then any_suffix (like_chars pat') s
      else
        match s with
        | EmptyString => false
        | String c s' =>
            (Ascii.eqb p "_"%char || Ascii.eqb (sql_fold p) (sql_fold c))
            && like_chars pat' s'
        end
  end.

(** [s LIKE pat]: both operands are matched as C strings. SQLite refuses
    a pattern of more than 50000 bytes ([execute] raises before any row
    is looked at); [like] is the operator on the patterns it accepts. *)
Definition like (pat s : string) : bool :=
  like_chars (c_string pat) (c_string s).

(** The pattern [f"{prefix}%"] that [CrawlerDB] binds to [url LIKE ?]. *)
Definition like_prefix (prefix u : string) : bool := like (prefix ++ "%") u.

(** [s.split(c, 1)[0]]: what stands before the first [c], all of [s]
    when there is none. *)
Fixpoint before (c : ascii) (s : string) : string :=
  match s with
  | EmptyString => EmptyString
  | String a s' => if Ascii.eqb a c then EmptyString else String a (before c s')
  end.

(** [s] with the case folding of [LIKE] applied to every character. *)
Fixpoint sql_lower (s : string) : string :=
  match s with
  | EmptyString => EmptyString
  | String c s' => String (sql_fold c) (sql_lower s')
  end.

(** [s] holds a NUL character. *)
Fixpoint has_nul (s : string) : bool :=
  match s with
  | EmptyString => false
  | String c s' => Ascii.eqb c Ascii.zero || has_nul s'
  end.

(** The number of bytes of [s] in UTF-8, the encoding in which SQLite
    holds text: one byte for a code point below 128, two for the others
    below 256. *)
Fixpoint utf8_length (s : string) : Z :=
  match s with
  | EmptyString => 0
  | String c s' =>
      (if (nat_of_ascii c <? 128)%nat then 1 else 2) + utf8_length s'
  end.

(** SQLite's default limit on the bytes of a [LIKE] pattern. *)
Definition MAX_LIKE_PATTERN_LENGTH : Z := 50000.

(** [s] holds neither of the wild cards of [LIKE]. *)
Fixpoint no_wildcard (s : string) : bool :=
  match s with
  | EmptyString => true
  | String c s' =>
      negb (Ascii.eqb c "%"%char) && negb (Ascii.eqb c "_"%char)
      && no_wildcard s'
  end.

End Str.

(* ================================================================== *)
(** ** [src/db.py]: the frontier store *)
(* ================================================================== *)

Module DB.

(** The column [status] is TEXT; every writer in the repository passes one
    of the four literals ['pending'], ['visited'], ['paused'], ['error']. *)
Inductive Status : Type := pending | visited | paused | error.

Definition status_eqb (a b : Status) : bool :=
  match a, b with
  | pending, pending | visited, visited | paused, paused | error, error => true
  | _, _ => false
  end.

(** One row of the table [urls], in column order ([row[0]] .. [row[7]]).
    [retry_count] and [is_sitemap] are never NULL: the only INSERT of the
    repository supplies both. *)
Record Row : Type := mkRow {
  id : Z;
  url : string;
  status : Status;
  last_status_change : option string;
  last_error : option string;
  retry_count : Z;
  is_sitemap : Z;
  pause_reason : option string
}.

(** The table, in [id] order. *)
Definition Table : Type := list Row.

(** [id INTEGER PRIMARY KEY AUTOINCREMENT]: rows are never deleted, so the
    next key is one more than the largest one in use. *)
Definition next_id (t : Table) : Z :=
  1 + fold_right Z.max 0 (map id t).

(** [get_url_row]: [SELECT * FROM urls WHERE url = ?], [fetchone()]. *)
Definition get_url_row (t : Table) (u : string) : option Row :=
  find (fun r => String.eqb (url r) u) t.

(** [get_earliest_url]: [SELECT url FROM urls ORDER BY id ASC LIMIT 1]. *)
Definition get_earliest_url (t : Table) : option string :=
  match t with
  | [] => None
  | r :: _ => Some (url r)
  end.

(** [insert_or_ignore_url]: the INSERT raises [IntegrityError] when the
    UNIQUE column [url] already holds [u]; the table is then left as it
    is and the result is [False]. *)
Definition insert_or_ignore_url (now : string) (t : Table) (u : string)
    (st : Status) (sm : Z) : Table * bool :=
  if existsb (fun r => String.eqb (url r) u) t then (t, false)
  else (t ++ [mkRow (next_id t) u st (Some now) None 0 sm None], true).

(** The SET clause that [update_url_status] assembles in [fields]. *)
Definition set_fields (now : string) (st : Status) (err : option string)
    (sm : option Z) (reason : option string)
    (clear_pause_reason increment_retry : bool) (r : Row) : Row :=
  mkRow (id r) (url r) st (Some now)
    (match err with Some e => Some e | None => last_error r end)
    (if increment_retry then retry_count r + 1 else retry_count r)
    (match sm with Some b => b | None => is_sitemap r end)
    (match reason with
     | Some p => Some p
     | None => if clear_pause_reason then None else pause_reason r
     end).

(** [update_url_status]: [UPDATE urls SET ... WHERE url = ?]. *)
Definition update_url_status (now : string) (t : Table) (u : string)
    (st : Status) (err : option string) (sm : option Z)
    (reason : option string) (clear_pause_reason increment_retry : bool)
    : Table :=
  map (fun r =>
         if String.eqb (url r) u
         then set_fields now st err sm reason clear_pause_reason
                increment_retry r
         else r) t.

(** [load_pending_urls] *)
Definition load_pending_urls (t : Table) : list string :=
  map url (filter (fun r => status_eqb (status r) pending) t).

(** [get_status_counts] *)
Definition get_status_counts (t : Table) : Z * Z * Z * Z :=
  let count st :=
    Z.of_nat (List.length (filter (fun r => status_eqb (status r) st) t)) in
  (count pending, count visited, count paused, count error).

(** [WHERE url LIKE ? AND status = ...] with the pattern [f"{prefix}%"],
    for a prefix short enough for SQLite to accept the pattern. *)
Definition selected (prefix : string) (st : Status) (r : Row) : bool :=
  Str.like_prefix prefix (url r) && status_eqb (status r) st.

(** [SET status = 'paused', last_status_change = ?, pause_reason = ?] *)
Definition set_paused (now reason : string) (r : Row) : Row :=
  mkRow (id r) (url r) paused (Some now) (last_error r) (retry_count r)
    (is_sitemap r) (Some reason).

(** [SET status = 'pending', last_status_change = ?, pause_reason = NULL] *)
Definition set_pending (now : string) (r : Row) : Row :=
  mkRow (id r) (url r) pending (Some now) (last_error r) (retry_count r)
    (is_sitemap r) None.

(** [pause_prefix]: the UPDATE and its [rowcount]. *)
Definition pause_prefix (now : string) (t : Table) (prefix reason : string)
    : Table * Z :=
  (map (fun r =>
          if selected prefix pending r
          then set_paused now reason r
          else r) t,
   Z.of_nat (List.length (filter (selected prefix pending) t))).

(** [list_paused_urls] *)
Definition list_paused_urls (t : Table) : list string :=
  map url (filter (fun r => status_eqb (status r) paused) t).

(** [resume_all_paused]: the SELECT, then the UPDATE. *)
Definition resume_all_paused (now : string) (t : Table)
    : Table * list string :=
  (map (fun r =>
          if status_eqb (status r) paused
          then set_pending now r
          else r) t,
   map url (filter (fun r => status_eqb (status r) paused) t)).

(** [resume_prefix]: the SELECT, then the UPDATE and its [rowcount]. *)
Definition resume_prefix (now : string) (t : Table) (prefix : string)
    : Table * (list string * Z) :=
  (map (fun r =>
          if selected prefix paused r
          then set_pending now r
          else r) t,
   (map url (filter (selected prefix paused) t),
    Z.of_nat (List.length (filter (selected prefix paused) t)))).

(** *** Observations on tables, used to state the properties *)

(** Number of rows stored under [u]. *)
Definition rows_of (t : Table) (u : string) : nat :=
  List.length (filter (fun r => String.eqb (url r) u) t).

(** Number of rows in status [st]. *)
Definition count (st : Status) (t : Table) : Z :=
  Z.of_nat (List.length (filter (fun r => status_eqb (status r) st) t)).

(** [t'] has kept every record of [t]: under the same URL there is still
    a row, with the same key and a retry count that is not smaller. *)
Definition grows (t t' : Table) : Prop :=
  forall u r, get_url_row t u = Some r ->
              exists r', get_url_row t' u = Some r' /\ id r' = id r /\
                         retry_count r <= retry_count r'.

(** The URLs of the rows that an operation moved into status [st]: row by
    row, [before] has another status and [after] has [st]. *)
Definition moved_to (st : Status) (before after : Table) : list string :=
  map (fun p => url (fst p))
    (filter (fun p => negb (status_eqb (status (fst p)) st)
                      && status_eqb (status (snd p)) st)
       (combine before after)).

End DB.

(* ================================================================== *)
(** ** [src/crawler.py]: the control plane and the worker *)
(* ================================================================== *)

Module Crawler.

Definition MAX_RETRIES : Z := 3.

(** What [print] writes to the terminal, one constructor per message. *)
Inductive Line : Type :=
| InvalidUrl                                   (* Invalid URL. *)
| SeededUrl (u : string)                       (* Seeded URL: .. *)
| UrlAlreadyKnown (u : string)                 (* URL already known (skipped): .. *)
| UrlNotFound (u : string)                     (* URL not found in DB: .. *)
| PausedUrl (u : string)                       (* Paused URL: .. *)
| PausedPrefix (affected : Z) (prefix : string) (removed : Z)
| UrlNotPaused (u : string)                    (* URL is not paused: .. *)
| ResumedUrl (u : string)                      (* Resumed URL: .. *)
| ResumedPrefix (affected : Z) (prefix : string)
| ResumedAll (n : Z)                           (* Resumed n paused URL(s). *)
| Content (base_url text : string)             (* [CONTENT] .. *)
| SitemapParseFailed (u : string)              (* [SITEMAP] Failed to parse .. *)
| SitemapIndexParsed (u : string)              (* [SITEMAP] Parsed sitemap index: .. *)
| SitemapParsed (u : string) (count : Z)       (* [SITEMAP] Parsed sitemap: .. *)
| SitemapUnrecognized (u tag : string)         (* [SITEMAP] Unrecognized XML root .. *)
| IndexOutOfRange (i : Z).                     (* Index out of range: .. *)

(** The dict that [scrape_html] returns and [_save_json_record] appends. *)
Record JsonRecord : Type := mkJson {
  json_url : string;
  json_title : string;
  json_status_code : Z;
  json_content : string
}.

(** The fields of a [Crawler] object that its operations read or write. *)
Record State : Type := mkState {
  db : DB.Table;
  pending_queue : list string;
  main_domain : option string;
  scraped_data : list JsonRecord;
  stdout : list Line
}.

Definition with_db (c : State) (t : DB.Table) : State :=
  mkState t (pending_queue c) (main_domain c) (scraped_data c) (stdout c).

(** [self.pending_queue.put(u)] *)
Definition put (c : State) (u : string) : State :=
  mkState (db c) (pending_queue c ++ [u]) (main_domain c) (scraped_data c)
    (stdout c).

Definition with_queue (c : State) (q : list string) : State :=
  mkState (db c) q (main_domain c) (scraped_data c) (stdout c).

Definition with_main_domain (c : State) (d : option string) : State :=
  mkState (db c) (pending_queue c) d (scraped_data c) (stdout c).

(** [print(..)] *)
Definition print (c : State) (l : Line) : State :=
  mkState (db c) (pending_queue c) (main_domain c) (scraped_data c)
    (stdout c ++ [l]).

(** [_save_json_record] *)
Definition _save_json_record (c : State) (data : JsonRecord) : State :=
  mkState (db c) (pending_queue c) (main_domain c) (scraped_data c ++ [data])
    (stdout c).

(** *** URL helpers *)

(** [_normalize_url]: both branches after the emptiness test return the
    trimmed string. *)
Definition _normalize_url (u : string) : string :=
  let u := Str.strip u in
  if String.eqb u "" then ""
  else if Str.startswith u "http://" || Str.startswith u "https://" then u
  else u.

(** [_looks_like_sitemap] *)
Definition _looks_like_sitemap (u : string) : bool :=
  let lower := Str.lower u in
  Str.endswith lower ".xml" || Str.endswith lower ".xml.gz"
  || Str.contains lower "sitemap".

(** The test [_handle_html_content] applies under [# filter non-http(s)]. *)
Definition has_http_scheme (u : string) : bool :=
  Str.startswith u "http://" || Str.startswith u "https://".

(** [_enqueue_new_url] *)
Definition _enqueue_new_url (now : string) (c : State) (u : string) (sm : Z)
    : State :=
  let (t, inserted) := DB.insert_or_ignore_url now (db c) u DB.pending sm in
  if inserted then put (with_db c t) u else with_db c t.

(** *** The work queue *)

(** The [while q:] loop of [_remove_from_pending_queue]: [q.popleft()],
    then either [removed += 1] or [new_q.append(u)]. Every entry of the
    queue is a [str], so [isinstance(u, str)] holds. *)
Fixpoint remove_loop (prefix : string) (q new_q : list string) (removed : Z)
    : list string * Z :=
  match q with
  | [] => (new_q, removed)
  | u :: q' =>
      if Str.startswith u prefix
      then remove_loop prefix q' new_q (removed + 1)
      else remove_loop prefix q' (new_q ++ [u]) removed
  end.

(** [_remove_from_pending_queue]: the new deque and the number removed. *)
Definition _remove_from_pending_queue (c : State) (prefix : string)
    : State * Z :=
  let (new_q, removed) := remove_loop prefix (pending_queue c) [] 0 in
  (with_queue c new_q, removed).

(** *** Operator commands *)

Section ControlPlane.

(** [urlparse(u).netloc]; [None] when [urlparse] raises. *)
Variable netloc : string -> option string.

(** The host shown as main domain: lower-cased, without a leading [www.]. *)
Definition host_of (u : string) : option string :=
  match netloc u with
  | Some n =>
      let host := Str.lower n in
      Some (if Str.startswith host "www." then Str.drop 4 host else host)
  | None => None
  end.

(** [if not self.main_domain] *)
Definition no_main_domain (c : State) : bool :=
  match main_domain c with
  | None => true
  | Some d => String.eqb d ""
  end.

(** [add_seed_url] *)
Definition add_seed_url (now : string) (c : State) (u : string) : State :=
  let u := _normalize_url u in
  if String.eqb u "" then print c InvalidUrl
  else
    let is_sitemap := if _looks_like_sitemap u then 1 else 0 in
    let (t, inserted) :=
      DB.insert_or_ignore_url now (db c) u DB.pending is_sitemap in
    if inserted then
      let c := print (put (with_db c t) u) (SeededUrl u) in
      if no_main_domain c then
        match host_of u with
        | Some host => with_main_domain c (Some host)
        | None => c
        end
      else c
    else print (with_db c t) (UrlAlreadyKnown u).

End ControlPlane.

(** [pause_url] *)
Definition pause_url (now : string) (c : State) (u reason : string) : State :=
  let u := _normalize_url u in
  match DB.get_url_row (db c) u with
  | None => print c (UrlNotFound u)
  | Some _ =>
      let t := DB.update_url_status now (db c) u DB.paused None None
                 (Some reason) false false in
      print (with_db c t) (PausedUrl u)
  end.

(** [pause_prefix] *)
Definition pause_prefix (now : string) (c : State) (prefix reason : string)
    : State :=
  let (t, affected) := DB.pause_prefix now (db c) prefix reason in
  let (c, removed) := _remove_from_pending_queue (with_db c t) prefix in
  print c (PausedPrefix affected prefix removed).

(** [resume_url] *)
Definition resume_url (now : string) (c : State) (u : string) : State :=
  let u := _normalize_url u in
  match DB.get_url_row (db c) u with
  | None => print c (UrlNotFound u)
  | Some row =>
      if negb (DB.status_eqb (DB.status row) DB.paused)
      then print c (UrlNotPaused u)
      else
        let t := DB.update_url_status now (db c) u DB.pending None None
                   None true false in
        print (put (with_db c t) u) (ResumedUrl u)
  end.

(** [resume_prefix] *)
Definition resume_prefix (now : string) (c : State) (prefix : string)
    : State :=
  let '(t, (urls, affected)) := DB.resume_prefix now (db c) prefix in
  print (fold_left put urls (with_db c t)) (ResumedPrefix affected prefix).

(** [resume_all_paused] *)
Definition resume_all_paused (now : string) (c : State) : State * Z :=
  let (t, urls) := DB.resume_all_paused now (db c) in
  let c := fold_left put urls (with_db c t) in
  let n := Z.of_nat (List.length urls) in
  (match urls with [] => c | _ :: _ => print c (ResumedAll n) end, n).

(** *** Fetched content *)

(** [urldefrag(urljoin(base_url, href))] for one anchor: the URL it
    returns, or the [ValueError] it raises (an [href] such as
    [http://[::1], "Invalid IPv6 URL"), with [str(e)] the message. *)
Inductive Href : Type :=
| Resolved (u : string)
| Unresolvable (msg : string).

(** What BeautifulSoup gives for a page: [soup.title.string] when there is
    one, [soup.get_text(separator=" ", strip=True)], and for every anchor
    with an [href], in document order, what [urljoin] and [urldefrag]
    make of it. *)
Record HtmlDoc : Type := mkHtml {
  soup_title : option string;
  soup_text : string;
  hrefs : list Href
}.

(** What ElementTree gives for the root of a sitemap: [root.tag], and the
    [loc] text of each child found by [root.findall(sitemap_tag)] and by
    [root.findall(url_tag)]; [None] stands for a missing [loc] element or
    a [loc] without text. *)
Record XmlRoot : Type := mkXml {
  tag : string;
  sitemap_locs : list (option string);
  url_locs : list (option string)
}.

(** What [_handle_sitemap_content] makes of the body. [ET.fromstring]
    on the (possibly gunzipped) text raises, [XmlError], or returns a
    root, [XmlOk]. [GunzipRaised] is a body that starts as a gzip stream
    and breaks off or is damaged: [gz.read()] raises [EOFError] or
    [zlib.error], which [except OSError] does not catch, with [str(e)]
    the message; read without gunzipping, such a body is not XML. *)
Inductive XmlParse : Type :=
| XmlError
| XmlOk (root : XmlRoot)
| GunzipRaised (msg : string).

(** [session.get(url, timeout=15)]: it raises [e] (with [str(e)] the
    message) or it returns a response, of which the worker reads the
    status code, the [Content-Type] header and the body; the body is given
    by what the two parsers make of it. *)
Inductive Fetch : Type :=
| Raised (msg : string)
| Response (status_code : Z) (content_type : string)
    (xml : XmlParse) (html : HtmlDoc).

(** [scrape_html] of [src/scraper.py] *)
Definition scrape_html (u : string) (html : HtmlDoc) (status_code : Z)
    : JsonRecord :=
  let title :=
    match soup_title html with
    | Some s => if String.eqb s "" then "" else Str.strip s
    | None => ""
    end in
  mkJson u title status_code (Str.take 500 (soup_text html)).

(** The [for a in soup.find_all("a", href=True)] loop of
    [_handle_html_content]: the state it leaves, and the message of the
    exception that ended it, if one did. *)
Fixpoint register_hrefs (now : string) (c : State) (l : list Href)
    : State * option string :=
  match l with
  | [] => (c, None)
  | Unresolvable msg :: _ => (c, Some msg)
  | Resolved href :: l' =>
      let new_url := _normalize_url href in
      let c :=
        if String.eqb new_url "" then c
        else if negb (has_http_scheme new_url) then c
        else _enqueue_new_url now c new_url 0 in
      register_hrefs now c l'
  end.

(** [_handle_html_content]: the state it leaves, and [None] when it
    returns or the message of the exception it raises. *)
Definition _handle_html_content (now : string) (c : State)
    (base_url : string) (html : HtmlDoc) : State * option string :=
  let c := print c (Content base_url (soup_text html)) in
  register_hrefs now c (hrefs html).

(** The text of a [loc] element that survives [if loc_el is None or not
    loc_el.text: continue] and [if not url: continue]. *)
Definition loc_url (loc : option string) : option string :=
  match loc with
  | None => None
  | Some text =>
      if String.eqb text "" then None
      else
        let u := _normalize_url (Str.strip text) in
        if String.eqb u "" then None else Some u
  end.

(** [_handle_sitemap_content]: the state it leaves, and [None] when it
    returns or the message of the exception it raises. The gzip stream
    is read only for a URL that ends in [.gz]. *)
Definition _handle_sitemap_content (now : string) (c : State) (u : string)
    (xml : XmlParse) : State * option string :=
  match xml with
  | GunzipRaised msg =>
      if Str.endswith u ".gz" then (c, Some msg)
      else (print c (SitemapParseFailed u), None)
  | XmlError => (print c (SitemapParseFailed u), None)
  | XmlOk root =>
      let t := Str.lower (tag root) in
      if Str.endswith t "sitemapindex" then
        let c :=
          fold_left
            (fun c loc =>
               match loc_url loc with
               | None => c
               | Some sm_url => _enqueue_new_url now c sm_url 1
               end)
            (sitemap_locs root) c in
        (print c (SitemapIndexParsed u), None)
      else if Str.endswith t "urlset" then
        let (c, count) :=
          fold_left
            (fun (acc : State * Z) loc =>
               let (c, count) := acc in
               match loc_url loc with
               | None => (c, count)
               | Some page_url => (_enqueue_new_url now c page_url 0, count + 1)
               end)
            (url_locs root) (c, 0) in
        (print c (SitemapParsed u count), None)
      else (print c (SitemapUnrecognized u (tag root)), None)
  end.

(** *** The worker *)

(** How the [try] block of [_process_url_with_db_check] ends: [success]
    with the [is_sitemap] it assigned, or the [error_msg] it caught. *)
Inductive Outcome : Type :=
| Success (is_sitemap : Z)
| Failure (error_msg : string).

(** What [except Exception as e] makes of a handler's end: [success]
    is set only when the handler has returned. *)
Definition handled (is_sitemap : Z) (r : State * option string)
    : State * Outcome :=
  match r with
  | (c, None) => (c, Success is_sitemap)
  | (c, Some msg) => (c, Failure msg)
  end.

(** The [try] block: the fetch, the status test and the dispatch. It
    fails when [session.get] raises, when the status is not 200, and
    when a content handler raises; in the last case the state is the one
    the handler had reached. The store and the content sink are taken not
    to fail. *)
Definition attempt (now : string) (c : State) (u : string) (resp : Fetch)
    : State * Outcome :=
  match resp with
  | Raised msg => (c, Failure msg)
  | Response status_code content_type xml html =>
      if negb (status_code =? 200)
      then (c, Failure ("HTTP " ++ Str.of_Z status_code))
      else if _looks_like_sitemap u || Str.contains content_type "xml"
      then handled 1 (_handle_sitemap_content now c u xml)
      else
        let data := scrape_html u html status_code in
        let c := _save_json_record c data in
        handled 0 (_handle_html_content now c u html)
  end.

(** The [if success: .. else: ..] that follows the [try] block;
    [retry_count] is the value read from the row before the fetch. *)
Definition record_outcome (now : string) (c : State) (u : string)
    (retry_count : Z) (o : Outcome) : State :=
  match o with
  | Success is_sitemap =>
      with_db c (DB.update_url_status now (db c) u DB.visited None
                   (Some is_sitemap) None false false)
  | Failure error_msg =>
      if retry_count + 1 <? MAX_RETRIES then
        put (with_db c (DB.update_url_status now (db c) u DB.pending
                          (Some error_msg) None None false true)) u
      else
        with_db c (DB.update_url_status now (db c) u DB.error
                     (Some error_msg) None None false true)
  end.

(** [_process_url_with_db_check] *)
Definition _process_url_with_db_check (now : string) (c : State)
    (resp : Fetch) (u : string) : State :=
  match DB.get_url_row (db c) u with
  | None => c
  | Some row =>
      if negb (DB.status_eqb (DB.status row) DB.pending) then c
      else
        let skip :=
          match DB.get_url_row (db c) u with
          | Some row_after =>
              negb (DB.status_eqb (DB.status row_after) DB.pending)
          | None => false
          end in
        if skip then c
        else
          let (c, o) := attempt now c u resp in
          record_outcome now c u (DB.retry_count row) o
  end.

(** One turn of [_worker_loop]: [pending_queue.get], then the processing
    of the URL taken; an empty queue leaves the state as it is. *)
Definition _worker_loop (now : string) (c : State) (session_get : string -> Fetch)
    : State :=
  match pending_queue c with
  | [] => c
  | u :: q => _process_url_with_db_check now (with_queue c q) (session_get u) u
  end.

(** *** Start-up, domain-wide resume, helpers *)

(** [_tag_with_ns]: the namespace of the root tag, [{...}], put in front
    of a local name. *)
Definition _tag_with_ns (root_tag local : string) : string :=
  if Str.startswith root_tag "{"
  then ((Str.before "}" root_tag ++ "}") ++ local)%string
  else local.

(** [determine_auto_threads]; [cpu_count] is [os.cpu_count()], [None]
    also standing for a call that raises. *)
Definition determine_auto_threads (cpu_count : option Z) : Z :=
  let cpu :=
    match cpu_count with
    | Some n => if n =? 0 then 4 else n
    | None => 4
    end in
  Z.max 2 (Z.min 32 (cpu * 4)).

(** Lines printed by the operations below; they are returned with the
    result instead of being appended to [stdout]. *)
Inductive Report : Type :=
| ResumedForDomain (n : Z) (domain : string).
                                    (* Resumed n paused URL(s) for domain .. *)

Section Lifecycle.

(** [urlparse(u).netloc]; [None] when [urlparse] raises. *)
Variable netloc : string -> option string.

(** [Crawler.__init__] on the table found in the database file and the
    records already in [scraped_data.jsonl]: the main domain is inferred
    from the earliest URL, the queue is rebuilt by
    [_load_pending_into_queue]. *)
Definition init (t : DB.Table) (sink : list JsonRecord) : State :=
  let domain :=
    match DB.get_earliest_url t with
    | Some first => if String.eqb first "" then None else host_of netloc first
    | None => None
    end in
  mkState t (fold_left (fun q u => q ++ [u]) (DB.load_pending_urls t) [])
    domain sink [].

(** The test [h == domain or h.endswith("." + domain)]. *)
Definition host_matches (h domain : string) : bool :=
  String.eqb h domain || Str.endswith h ("." ++ domain).

(** Whether the host of [u] is [domain] or a subdomain of it; a URL
    that [urlparse] rejects matches nothing. *)
Definition url_in_domain (domain u : string) : bool :=
  match host_of netloc u with
  | Some h => host_matches h domain
  | None => false
  end.

(** The body of the loop of [resume_paused_for_domain]. *)
Definition resume_if_host_matches (now domain : string) (acc : State * Z)
    (u : string) : State * Z :=
  let (c, resumed) := acc in
  match host_of netloc u with
  | None => (c, resumed)
  | Some h =>
      if host_matches h domain then
        (put (with_db c (DB.update_url_status now (db c) u DB.pending None
                           None None true false)) u,
         resumed + 1)
      else (c, resumed)
  end.

(** [resume_paused_for_domain] *)
Definition resume_paused_for_domain (now : string) (c : State)
    (domain : string) : State * Z * list Report :=
  let paused_urls := DB.list_paused_urls (db c) in
  let (c', resumed) :=
    fold_left (resume_if_host_matches now domain) paused_urls (c, 0) in
  (c', resumed,
   if resumed =? 0 then [] else [ResumedForDomain resumed domain]).

(** One operation of the crawler, run to its end: an operator command, a
    turn of a worker, or a restart on the persisted table. *)
Inductive Step : State -> State -> Prop :=
| step_add_seed_url now c u :
    Step c (add_seed_url netloc now c u)
| step_pause_url now c u reason :
    Step c (pause_url now c u reason)
| step_pause_prefix now c prefix reason :
    Step c (pause_prefix now c prefix reason)
| step_resume_url now c u :
    Step c (resume_url now c u)
| step_resume_prefix now c prefix :
    Step c (resume_prefix now c prefix)
| step_resume_all_paused now c :
    Step c (fst (resume_all_paused now c))
| step_resume_paused_for_domain now c domain :
    Step c (fst (fst (resume_paused_for_domain now c domain)))
| step_worker now c session_get :
    Step c (_worker_loop now c session_get)
| step_restart c :
    Step c (init (db c) (scraped_data c)).

(** The states a crawler gets to from a new, empty database. *)
Inductive Reachable : State -> Prop :=
| reachable_init : Reachable (init [] [])
| reachable_step c c' : Reachable c -> Step c c' -> Reachable c'.

(** *** Operator inputs *)

(** What the operator asks of the crawler through [main]: the commands
    [seed], [pause], [pause-prefix], [resume] and [resume-prefix] of the
    command loop on their argument (the startup menu passes its inputs
    the same way), and one number [i] of a selection made in the list
    [paused_urls] that option 3 of the startup menu shows. *)
Inductive Command : Type :=
| Seed (u : string)
| Pause (u : string)
| PausePrefix (prefix : string)
| Resume (u : string)
| ResumePrefix (prefix : string)
| ResumeNumber (paused_urls : list string) (i : Z).

(** The call [main] makes for a command; the pause reasons are the
    defaults of [pause_url] and [pause_prefix]. *)
Definition run (now : string) (c : State) (cmd : Command) : State :=
  match cmd with
  | Seed u => add_seed_url netloc now c u
  | Pause u => pause_url now c u "user-pause"
  | PausePrefix prefix => pause_prefix now c prefix "user-pause-prefix"
  | Resume u => resume_url now c u
  | ResumePrefix prefix => resume_prefix now c prefix
  | ResumeNumber paused_urls i =>
      if (1 <=? i) && (i <=? Z.of_nat (List.length paused_urls))
      then resume_url now c (nth (Z.to_nat (i - 1)) paused_urls "")
      else print c (IndexOutOfRange i)
  end.

End Lifecycle.

(** *** Observations on states, used to state the properties *)


(** The store holds the row [r] under [u]. *)
Definition keeps_row (u : string) (r : DB.Row) (c : State) : Prop :=
  DB.get_url_row (db c) u = Some r.

(** What the schema and the retry policy promise of one row:
    [retry_count] is not negative, [pause_reason] is set exactly on a
    paused row, and a row in the error state has used up its retries. *)
Definition row_ok (r : DB.Row) : Prop :=
  0 <= DB.retry_count r /\
  (DB.status r = DB.paused <-> DB.pause_reason r <> None) /\
  (DB.status r = DB.error -> MAX_RETRIES <= DB.retry_count r).

(** A table and a queue that fit together: URLs are distinct, keys grow
    with the position, every row is [row_ok], every queued URL is known
    and every pending record is queued. *)
Definition consistent (t : DB.Table) (q : list string) : Prop :=
  NoDup (map DB.url t) /\
  StronglySorted (fun a b => DB.id a < DB.id b) t /\
  Forall row_ok t /\
  (forall u, In u q -> DB.get_url_row t u <> None) /\
  (forall r, In r t -> DB.status r = DB.pending -> In (DB.url r) q).

(** The message of the failure that the [try] block of the worker turns
    a response into, if any: the exception of [session.get], or the
    status code of a response that is not a 200. *)
Definition failure_of (resp : Fetch) : option string :=
  match resp with
  | Raised msg => Some msg
  | Response status_code _ _ _ =>
      if negb (status_code =? 200)
      then Some ("HTTP " ++ Str.of_Z status_code)%string
      else None
  end.

(** The anchors the loop of [_handle_html_content] gets through: those
    before the first one that cannot be resolved. *)
Fixpoint resolved_hrefs (l : list Href) : list string :=
  match l with
  | Resolved u :: l' => u :: resolved_hrefs l'
  | _ => []
  end.

(** The message of the first anchor that cannot be resolved. *)
Fixpoint first_unresolvable (l : list Href) : option string :=
  match l with
  | [] => None
  | Unresolvable msg :: _ => Some msg
  | Resolved _ :: l' => first_unresolvable l'
  end.

(** The links of a page that pass the filters of [_handle_html_content],
    in document order. *)
Definition http_links (html : HtmlDoc) : list string :=
  filter has_http_scheme (map _normalize_url (resolved_hrefs (hrefs html))).

(** The URLs that a list of [loc] texts gives, in document order. *)
Definition loc_urls (locs : list (option string)) : list string :=
  flat_map (fun loc => match loc_url loc with
                       | Some v => [v]
                       | None => []
                       end) locs.

(** The URLs of [l] that are not among [known], each once, in the order
    of their first occurrence. *)
Fixpoint fresh (known l : list string) : list string :=
  match l with
  | [] => []
  | u :: l' =>
      if existsb (String.eqb u) known then fresh known l'
      else u :: fresh (known ++ [u]) l'
  end.

(** [_enqueue_new_url] on each URL of [l] in turn. *)
Definition enqueue_all (now : string) (sm : Z) (c : State) (l : list string)
    : State :=
  fold_left (fun c u => _enqueue_new_url now c u sm) l c.

(** The message of the exception that a content handler raises on the
    response to a fetch of [u], if the response gets to a handler and the
    handler raises. *)
Definition handler_failure (u : string) (resp : Fetch) : option string :=
  match resp with
  | Raised _ => None
  | Response status_code content_type xml html =>
      if negb (status_code =? 200) then None
      else if _looks_like_sitemap u || Str.contains content_type "xml" then
        match xml with
        | GunzipRaised msg => if Str.endswith u ".gz" then Some msg else None
        | _ => None
        end
      else first_unresolvable (hrefs html)
  end.

(** From [c] to [c'] the URLs [added], and no others, were registered:
    they were unknown, they are distinct, each now has a fresh pending
    row that satisfies [Q] and stands at the back of the queue in the
    order of registration, each satisfies [P], and the rows that were
    there are untouched. *)
Definition registers (P : string -> Prop) (Q : DB.Row -> Prop)
    (c c' : State) (added : list string) : Prop :=
  pending_queue c' = pending_queue c ++ added /\
  NoDup added /\
  (forall v, In v added ->
     P v /\ DB.get_url_row (db c) v = None /\
     exists r, DB.get_url_row (db c') v = Some r /\
               DB.status r = DB.pending /\ DB.retry_count r = 0 /\
               DB.last_error r = None /\ Q r) /\
  (forall v r, DB.get_url_row (db c) v = Some r ->
               DB.get_url_row (db c') v = Some r) /\
  (forall v, DB.get_url_row (db c) v = None -> ~ In v added ->
             DB.get_url_row (db c') v = None).

(** *** A run to try the statements on *)

(** [urlparse] on the URLs of the run below. *)
Definition sample_netloc (u : string) : option string := Some "example.com".

(** A new database, two seeds, a pause of the first by prefix, and one
    turn of a worker that gets a 503 for the second. *)
Definition sample_state : State :=
  _worker_loop "t3"
    (pause_prefix "t2"
       (add_seed_url sample_netloc "t1"
          (add_seed_url sample_netloc "t0" (init sample_netloc [] [])
             "https://example.com/a")
          "https://example.com/b")
       "https://example.com/a" "user-pause-prefix")
    (fun _ => Response 503 "text/html" XmlError (mkHtml None "" [])).

(** A new database, one seed, and three turns of a worker whose fetch
    times out each time. *)
Definition sample_failed_state : State :=
  let session_get := fun _ : string => Raised "timed out" in
  _worker_loop "t3"
    (_worker_loop "t2"
       (_worker_loop "t1"
          (add_seed_url sample_netloc "t0" (init sample_netloc [] [])
             "https://example.com/a")
          session_get)
       session_get)
    session_get.

End Crawler.

(* ================================================================== *)
(** ** Properties of the string primitives *)
(* ================================================================== *)

Module StrFacts.
Import Str.

(** [startswith] is the literal prefix test. *)
Lemma startswith_iff (s p : string) :
  startswith s p = true <-> exists rest, s = (p ++ rest)%string.
Proof.
  revert s; induction p as [|a p IH]; intros s; simpl.
  - split; [intros _; now exists s | reflexivity].
  - destruct s as [|b s].
    + split; [discriminate | intros [rest H]; discriminate].
    + rewrite andb_true_iff, Ascii.eqb_eq, IH. split.
      * intros [-> [rest ->]]. now exists rest.
      * intros [rest H]. injection H as -> ->. split; [reflexivity | now exists rest].
Qed.

Lemma any_suffix_here (f : string -> bool) (t : string) :
  f t = true -> any_suffix f t = true.
Proof. intros H; destruct t; simpl; rewrite H; reflexivity. Qed.

Lemma any_suffix_later (f : string -> bool) (c : ascii) (t : string) :
  any_suffix f t = true -> any_suffix f (String c t) = true.
Proof. intros H; simpl; rewrite H; apply orb_true_r. Qed.

(** The pattern [%] alone matches every string. *)
Lemma like_chars_percent (s : string) : like_chars "%" s = true.
Proof.
  simpl. induction s as [|c s IH]; [reflexivity|].
  now apply any_suffix_later.
Qed.

Lemma like_percent (s : string) : like "%" s = true.
Proof. unfold like. simpl. apply like_chars_percent. Qed.

(** Every string that literally starts with [prefix] is matched by the
    pattern [prefix%], whatever characters [prefix] is made of: when a
    NUL cuts the prefix short, it cuts the string at the same place. *)
Lemma startswith_like_prefix (prefix u : string) :
  startswith u prefix = true -> like_prefix prefix u = true.
Proof.
  unfold like_prefix, like. revert u; induction prefix as [|a p IH]; intros u H.
  - simpl. apply like_chars_percent.
  - destruct u as [|b u]; [discriminate|].
    simpl in H. apply andb_true_iff in H as [Hab Hp].
    apply Ascii.eqb_eq in Hab; subst b.
    specialize (IH u Hp).
    change (String a p ++ "%")%string with (String a (p ++ "%")).
    cbn [c_string]. destruct (Ascii.eqb a Ascii.zero); [reflexivity|].
    cbn [like_chars]. destruct (Ascii.eqb a "%").
    + apply any_suffix_later, any_suffix_here, IH.
    + rewrite IH, Ascii.eqb_refl, orb_true_r. reflexivity.
Qed.

End StrFacts.

(* ================================================================== *)
(** ** Properties of the frontier store *)
(* ================================================================== *)

Module DBFacts.
Import DB.

Lemma status_eqb_eq (a b : Status) : status_eqb a b = true <-> a = b.
Proof. destruct a, b; simpl; split; congruence. Qed.

Lemma status_eqb_refl (a : Status) : status_eqb a a = true.
Proof. now destruct a. Qed.

Lemma status_eqb_neq (a b : Status) : status_eqb a b = false <-> a <> b.
Proof. destruct a, b; simpl; split; congruence. Qed.

(** A row found under [u] carries [u]. *)
Lemma get_url_row_url (t : Table) (u : string) (r : Row) :
  get_url_row t u = Some r -> url r = u.
Proof.
  unfold get_url_row. intros H. apply find_some in H as [_ H].
  now apply String.eqb_eq.
Qed.

Lemma get_url_row_In (t : Table) (u : string) (r : Row) :
  get_url_row t u = Some r -> In r t.
Proof. unfold get_url_row. intros H. now apply find_some in H. Qed.

(** The UNIQUE test of the INSERT and the point lookup agree. *)
Lemma known_iff_row (t : Table) (u : string) :
  existsb (fun r => String.eqb (url r) u) t = false <-> get_url_row t u = None.
Proof.
  unfold get_url_row. induction t as [|r t IH]; simpl; [tauto|].
  destruct (String.eqb (url r) u); simpl; [split; discriminate | exact IH].
Qed.

Lemma get_url_row_app (t t' : Table) (u : string) :
  get_url_row (t ++ t') u =
  match get_url_row t u with
  | Some r => Some r
  | None => get_url_row t' u
  end.
Proof.
  unfold get_url_row. induction t as [|r t IH]; simpl; [reflexivity|].
  now destruct (String.eqb (url r) u).
Qed.

(** An update rewrites the row it addresses with [set_fields]. *)
Lemma get_url_row_update_same now t u st err sm reason clr inc r :
  get_url_row t u = Some r ->
  get_url_row (update_url_status now t u st err sm reason clr inc) u
  = Some (set_fields now st err sm reason clr inc r).
Proof.
  unfold get_url_row, update_url_status.
  induction t as [|x t IH]; simpl; [discriminate|].
  destruct (String.eqb (url x) u) eqn:E; simpl.
  - rewrite E. now intros [= ->].
  - rewrite E. exact IH.
Qed.

(** An update leaves the rows of every other URL as they are. *)
Lemma get_url_row_update_other now t u st err sm reason clr inc u' :
  u' <> u ->
  get_url_row (update_url_status now t u st err sm reason clr inc) u'
  = get_url_row t u'.
Proof.
  intros Hne. unfold get_url_row, update_url_status.
  induction t as [|x t IH]; simpl; [reflexivity|].
  destruct (String.eqb (url x) u) eqn:E; simpl.
  - apply String.eqb_eq in E.
    destruct (String.eqb (url x) u') eqn:E'.
    + apply String.eqb_eq in E'. congruence.
    + exact IH.
  - destruct (String.eqb (url x) u'); [reflexivity | exact IH].
Qed.

(** Unknown URL: the UPDATE matches no row. *)
Lemma update_unknown_noop now t u st err sm reason clr inc :
  get_url_row t u = None ->
  update_url_status now t u st err sm reason clr inc = t.
Proof.
  unfold get_url_row, update_url_status.
  induction t as [|x t IH]; simpl; [reflexivity|].
  destruct (String.eqb (url x) u); [discriminate|].
  intros H. now rewrite IH.
Qed.

(** An INSERT never touches a row that is already there. *)
Lemma insert_keeps_row now t u st sm u' r :
  get_url_row t u' = Some r ->
  get_url_row (fst (insert_or_ignore_url now t u st sm)) u' = Some r.
Proof.
  intros H. unfold insert_or_ignore_url.
  destruct (existsb _ t); simpl; [exact H|].
  now rewrite get_url_row_app, H.
Qed.

Lemma rows_of_unknown (t : Table) (u : string) :
  get_url_row t u = None -> rows_of t u = 0%nat.
Proof.
  unfold rows_of, get_url_row. induction t as [|x t IH]; simpl; [reflexivity|].
  destruct (String.eqb (url x) u); [discriminate | exact IH].
Qed.

(** C5. For a URL the store does not know yet, two calls of
    [insert_or_ignore_url] with that URL insert exactly one record: the
    first call returns [True] and appends a row with the given status,
    [retry_count = 0] and no error; the second call, whatever status,
    sitemap hint and clock it is given, returns [False] and leaves the
    whole table, hence every field of the existing record, unchanged.
    The same holds of a second call made later, on any table in which
    the URL is known: the record keeps the status and the retry count it
    has reached by then. *)
Theorem insert_twice_inserts_once
    (now now' : string) (t : Table) (u : string) (st st' : Status)
    (sm sm' : Z) :
  get_url_row t u = None ->
  let first := insert_or_ignore_url now t u st sm in
  let second := insert_or_ignore_url now' (fst first) u st' sm' in
  snd first = true /\
  fst first = t ++ [mkRow (next_id t) u st (Some now) None 0 sm None] /\
  rows_of (fst first) u = 1%nat /\
  snd second = false /\
  fst second = fst first /\
  get_url_row (fst second) u
  = Some (mkRow (next_id t) u st (Some now) None 0 sm None) /\
  (forall t' r, get_url_row t' u = Some r ->
                insert_or_ignore_url now' t' u st' sm' = (t', false)).
Proof.
  intros Hnew first second.
  assert (Hex : existsb (fun r => String.eqb (url r) u) t = false)
    by now apply known_iff_row.
  assert (Hfirst : first
            = (t ++ [mkRow (next_id t) u st (Some now) None 0 sm None], true)).
  { unfold first, insert_or_ignore_url. now rewrite Hex. }
  assert (Hrow : get_url_row (fst first) u
            = Some (mkRow (next_id t) u st (Some now) None 0 sm None)).
  { rewrite Hfirst; simpl. rewrite get_url_row_app, Hnew.
    unfold get_url_row; simpl. now rewrite String.eqb_refl. }
  assert (Hsecond : second = (fst first, false)).
  { unfold second, insert_or_ignore_url.
    destruct (existsb _ (fst first)) eqn:E; [reflexivity|].
    apply known_iff_row in E. congruence. }
  repeat split.
  - now rewrite Hfirst.
  - now rewrite Hfirst.
  - rewrite Hfirst; simpl. unfold rows_of.
    rewrite filter_app, length_app. fold (rows_of t u).
    rewrite (rows_of_unknown _ _ Hnew). simpl. now rewrite String.eqb_refl.
  - now rewrite Hsecond.
  - now rewrite Hsecond.
  - now rewrite Hsecond.
  - intros t' r Hr. unfold insert_or_ignore_url.
    destruct (existsb _ t') eqn:E; [reflexivity|].
    apply known_iff_row in E. congruence.
Qed.

(** C5 at the empty store and [https://example.com/]. *)
Lemma insert_twice_inserts_once_witness :
  let first := insert_or_ignore_url "t0" [] "https://example.com/" pending 0 in
  let second :=
    insert_or_ignore_url "t1" (fst first) "https://example.com/" visited 1 in
  snd first = true /\
  fst first
  = [] ++ [mkRow (next_id []) "https://example.com/" pending (Some "t0")
             None 0 0 None] /\
  rows_of (fst first) "https://example.com/" = 1%nat /\
  snd second = false /\
  fst second = fst first /\
  get_url_row (fst second) "https://example.com/"
  = Some (mkRow (next_id []) "https://example.com/" pending (Some "t0")
            None 0 0 None) /\
  (forall t' r, get_url_row t' "https://example.com/" = Some r ->
                insert_or_ignore_url "t1" t' "https://example.com/" visited 1
                = (t', false)).
Proof.
  apply (insert_twice_inserts_once "t0" "t1" [] "https://example.com/"
           pending visited 0 1).
  reflexivity.
Defined.

(** A call for a URL that is already known changes nothing and says so,
    whatever the state of the record. *)
Lemma insert_known_noop now t u st sm r :
  get_url_row t u = Some r ->
  insert_or_ignore_url now t u st sm = (t, false).
Proof.
  intros H. unfold insert_or_ignore_url.
  destruct (existsb _ t) eqn:E; [reflexivity|].
  apply known_iff_row in E. congruence.
Qed.

End DBFacts.

(* ================================================================== *)
(** ** Properties of the work queue and of the control plane *)
(* ================================================================== *)

Module CrawlerFacts.
Import Crawler.

(** The loop keeps, behind what it has kept so far, the entries that do
    not start with [prefix], and counts the others. *)
Lemma remove_loop_spec (prefix : string) (q new_q : list string) (removed : Z) :
  remove_loop prefix q new_q removed =
  (new_q ++ filter (fun u => negb (Str.startswith u prefix)) q,
   removed
   + Z.of_nat (List.length (filter (fun u => Str.startswith u prefix) q))).
Proof.
  revert new_q removed.
  induction q as [|u q IH]; intros new_q removed; cbn [remove_loop filter].
  - cbn [List.length]. now rewrite app_nil_r, Z.add_0_r.
  - destruct (Str.startswith u prefix); cbn [negb List.length]; rewrite IH.
    + f_equal. rewrite Nat2Z.inj_succ. lia.
    + now rewrite <- app_assoc.
Qed.

(** C9. [_remove_from_pending_queue] removes from the queue exactly the
    entries that start with [prefix]: the queue it leaves is the old one
    filtered on "does not start with [prefix]", so the entries that stay
    keep their relative order, and the number it returns is the number
    of entries that start with [prefix]; the store is not touched. *)
Theorem remove_from_pending_queue_by_prefix (c : State) (prefix : string) :
  let result := _remove_from_pending_queue c prefix in
  pending_queue (fst result)
  = filter (fun u => negb (Str.startswith u prefix)) (pending_queue c) /\
  snd result
  = Z.of_nat
      (List.length
         (filter (fun u => Str.startswith u prefix) (pending_queue c))) /\
  db (fst result) = db c.
Proof.
  unfold _remove_from_pending_queue. rewrite remove_loop_spec. simpl.
  repeat split.
Qed.

(** C8. When the record that [resume_url] looks up (the one stored under
    the trimmed URL) exists and is not paused, the call changes nothing
    but the terminal: the table, the queue, the main domain and the
    content sink are those of before, and the only effect is the line
    "URL is not paused". *)
Theorem resume_url_not_paused_noop
    (now : string) (c : State) (u : string) (row : DB.Row) :
  DB.get_url_row (db c) (_normalize_url u) = Some row ->
  DB.status row <> DB.paused ->
  let c' := resume_url now c u in
  db c' = db c /\
  pending_queue c' = pending_queue c /\
  main_domain c' = main_domain c /\
  scraped_data c' = scraped_data c /\
  stdout c' = stdout c ++ [UrlNotPaused (_normalize_url u)].
Proof.
  intros Hrow Hst c'. unfold c', resume_url. rewrite Hrow.
  apply DBFacts.status_eqb_neq in Hst. rewrite Hst. simpl.
  repeat split.
Qed.

(** C8 at a visited record. *)
Lemma resume_url_not_paused_noop_witness :
  let row := DB.mkRow 1 "https://example.com/" DB.visited (Some "t0") None 0 0
               None in
  let c := mkState [row] ["https://example.com/a"] None [] [] in
  let c' := resume_url "t1" c " https://example.com/ " in
  db c' = db c /\
  pending_queue c' = pending_queue c /\
  main_domain c' = main_domain c /\
  scraped_data c' = scraped_data c /\
  stdout c' = stdout c ++ [UrlNotPaused (_normalize_url " https://example.com/ ")].
Proof.
  intros row c.
  apply (resume_url_not_paused_noop "t1" c " https://example.com/ " row).
  - reflexivity.
  - simpl. discriminate.
Defined.

(** C10. [pause_url] pauses the record it finds whatever its status:
    afterwards the record is paused with the given reason and every other
    column but the time stamp is as before, and the queue is as before.
    A following [resume_url] of the same URL finds it paused, sets it to
    pending, clears the reason and pushes the URL. Nothing is assumed of
    the status the record had, so a visited or failed record re-enters
    the crawl this way. *)
Theorem pause_url_any_status
    (now now' : string) (c : State) (u reason : string) (row : DB.Row) :
  DB.get_url_row (db c) (_normalize_url u) = Some row ->
  let c1 := pause_url now c u reason in
  let c2 := resume_url now' c1 u in
  DB.get_url_row (db c1) (_normalize_url u)
  = Some (DB.mkRow (DB.id row) (DB.url row) DB.paused (Some now)
            (DB.last_error row) (DB.retry_count row) (DB.is_sitemap row)
            (Some reason)) /\
  pending_queue c1 = pending_queue c /\
  DB.get_url_row (db c2) (_normalize_url u)
  = Some (DB.mkRow (DB.id row) (DB.url row) DB.pending (Some now')
            (DB.last_error row) (DB.retry_count row) (DB.is_sitemap row)
            None) /\
  pending_queue c2 = pending_queue c ++ [_normalize_url u].
Proof.
  intros Hrow c1 c2.
  assert (H1 : DB.get_url_row (db c1) (_normalize_url u)
            = Some (DB.set_fields now DB.paused None None (Some reason)
                      false false row)).
  { unfold c1, pause_url. rewrite Hrow. simpl.
    now apply DBFacts.get_url_row_update_same. }
  assert (Hq1 : pending_queue c1 = pending_queue c).
  { unfold c1, pause_url. now rewrite Hrow. }
  split; [exact H1|]. split; [exact Hq1|].
  unfold c2, resume_url. rewrite H1. simpl.
  split; [|now rewrite Hq1].
  now rewrite (DBFacts.get_url_row_update_same _ _ _ _ _ _ _ _ _ _ H1).
Qed.

(** C10 at a record in the terminal error state. *)
Lemma pause_url_any_status_witness :
  let row := DB.mkRow 1 "https://example.com/" DB.error (Some "t0")
               (Some "HTTP 500") 3 0 None in
  let c := mkState [row] [] None [] [] in
  let c1 := pause_url "t1" c "https://example.com/" "user-pause" in
  let c2 := resume_url "t2" c1 "https://example.com/" in
  DB.get_url_row (db c1) (_normalize_url "https://example.com/")
  = Some (DB.mkRow 1 "https://example.com/" DB.paused (Some "t1")
            (Some "HTTP 500") 3 0 (Some "user-pause")) /\
  pending_queue c1 = pending_queue c /\
  DB.get_url_row (db c2) (_normalize_url "https://example.com/")
  = Some (DB.mkRow 1 "https://example.com/" DB.pending (Some "t2")
            (Some "HTTP 500") 3 0 None) /\
  pending_queue c2 = pending_queue c ++ [_normalize_url "https://example.com/"].
Proof.
  intros row c.
  apply (pause_url_any_status "t1" "t2" c "https://example.com/" "user-pause"
           row).
  reflexivity.
Defined.

(** *** The content handlers *)

(** Link registration only ever appends rows: a record that is in the
    store stays as it is. *)
Lemma enqueue_keeps_row now c v sm u r :
  keeps_row u r c -> keeps_row u r (_enqueue_new_url now c v sm).
Proof.
  unfold keeps_row, _enqueue_new_url. intros H.
  pose proof (DBFacts.insert_keeps_row now (db c) v DB.pending sm u r H) as K.
  destruct (DB.insert_or_ignore_url now (db c) v DB.pending sm) as [t [|]];
    exact K.
Qed.

Lemma fold_left_invariant {A B : Type} (P : A -> Prop) (f : A -> B -> A)
    (l : list B) (a : A) :
  (forall a b, P a -> P (f a b)) -> P a -> P (fold_left f l a).
Proof.
  intros Hf. revert a. induction l as [|b l IH]; intros a Ha; simpl; auto.
Qed.

Lemma enqueue_all_invariant (I : State -> Prop) now sm c l :
  (forall c v, I c -> I (_enqueue_new_url now c v sm)) ->
  I c -> I (enqueue_all now sm c l).
Proof. intros H. unfold enqueue_all. now apply fold_left_invariant. Qed.

Lemma enqueue_all_app now sm c l l' :
  enqueue_all now sm c (l ++ l') = enqueue_all now sm (enqueue_all now sm c l) l'.
Proof. unfold enqueue_all. apply fold_left_app. Qed.

(** The loop over the anchors registers the links that pass the two
    filters, up to the first anchor that cannot be resolved. *)
Lemma register_hrefs_run now c l :
  register_hrefs now c l
  = (enqueue_all now 0 c
       (filter has_http_scheme (map _normalize_url (resolved_hrefs l))),
     first_unresolvable l).
Proof.
  revert c. induction l as [|[href|msg] l IH]; intros c;
    [reflexivity | | reflexivity].
  cbn [register_hrefs resolved_hrefs first_unresolvable map filter].
  rewrite IH.
  destruct (String.eqb (_normalize_url href) "") eqn:E.
  - apply String.eqb_eq in E. rewrite E. reflexivity.
  - destruct (has_http_scheme (_normalize_url href)); reflexivity.
Qed.

Lemma handle_html_run now c base html :
  _handle_html_content now c base html
  = (enqueue_all now 0 (print c (Content base (soup_text html)))
       (http_links html),
     first_unresolvable (hrefs html)).
Proof. unfold _handle_html_content. apply register_hrefs_run. Qed.

Lemma sitemap_index_loop now c locs :
  fold_left
    (fun c loc => match loc_url loc with
                  | None => c
                  | Some sm_url => _enqueue_new_url now c sm_url 1
                  end) locs c
  = enqueue_all now 1 c (loc_urls locs).
Proof.
  revert c. induction locs as [|loc locs IH]; intros c; [reflexivity|].
  change (loc_urls (loc :: locs))
    with (match loc_url loc with Some v => [v] | None => [] end
          ++ loc_urls locs).
  rewrite enqueue_all_app. cbn [fold_left]. rewrite IH.
  destruct (loc_url loc); reflexivity.
Qed.

Lemma sitemap_urlset_loop now c locs n :
  fold_left
    (fun (acc : State * Z) loc =>
       let (c, count) := acc in
       match loc_url loc with
       | None => (c, count)
       | Some page_url => (_enqueue_new_url now c page_url 0, count + 1)
       end) locs (c, n)
  = (enqueue_all now 0 c (loc_urls locs),
     n + Z.of_nat (List.length (loc_urls locs))).
Proof.
  revert c n. induction locs as [|loc locs IH]; intros c n.
  - simpl. now rewrite Z.add_0_r.
  - change (loc_urls (loc :: locs))
      with (match loc_url loc with Some v => [v] | None => [] end
            ++ loc_urls locs).
    rewrite enqueue_all_app, length_app. cbn [fold_left].
    destruct (loc_url loc); rewrite IH; cbn [List.length Nat.add enqueue_all fold_left];
      f_equal; lia.
Qed.

(** On a root that parses, the sitemap handler registers the [loc] URLs
    of the children that go with the root tag, prints one line and
    returns. *)
Lemma handle_sitemap_run now c u root :
  _handle_sitemap_content now c u (XmlOk root)
  = (if Str.endswith (Str.lower (tag root)) "sitemapindex" then
       print (enqueue_all now 1 c (loc_urls (sitemap_locs root)))
         (SitemapIndexParsed u)
     else if Str.endswith (Str.lower (tag root)) "urlset" then
       print (enqueue_all now 0 c (loc_urls (url_locs root)))
         (SitemapParsed u (Z.of_nat (List.length (loc_urls (url_locs root)))))
     else print c (SitemapUnrecognized u (tag root)),
     None).
Proof.
  unfold _handle_sitemap_content.
  destruct (Str.endswith (Str.lower (tag root)) "sitemapindex").
  - now rewrite sitemap_index_loop.
  - destruct (Str.endswith (Str.lower (tag root)) "urlset"); [|reflexivity].
    now rewrite sitemap_urlset_loop.
Qed.

(** Whatever [_enqueue_new_url], [print] and [_save_json_record] keep,
    the [try] block keeps, however it ends. *)
Lemma attempt_invariant (I : State -> Prop) now c u resp :
  (forall c v sm, I c -> I (_enqueue_new_url now c v sm)) ->
  (forall c l, I c -> I (print c l)) ->
  (forall c d, I c -> I (_save_json_record c d)) ->
  I c -> I (fst (attempt now c u resp)).
Proof.
  intros He Hp Hs H. destruct resp as [m|code ct xml html]; simpl; [exact H|].
  destruct (code =? 200); simpl; [|exact H].
  destruct (_looks_like_sitemap u || Str.contains ct "xml").
  - destruct xml as [|root|msg].
    + simpl. now apply Hp.
    + rewrite handle_sitemap_run. cbn [handled fst].
      destruct (Str.endswith (Str.lower (tag root)) "sitemapindex");
        [|destruct (Str.endswith (Str.lower (tag root)) "urlset")];
        apply Hp; try exact H; apply enqueue_all_invariant; auto.
    + simpl. destruct (Str.endswith u ".gz"); simpl; [exact H | now apply Hp].
  - rewrite handle_html_run.
    assert (K : I (enqueue_all now 0
                     (print (_save_json_record c (scrape_html u html code))
                        (Content u (soup_text html))) (http_links html))).
    { apply enqueue_all_invariant; auto. }
    unfold handled. now destruct (first_unresolvable (hrefs html)).
Qed.

Lemma attempt_keeps_row now c v resp u r :
  keeps_row u r c -> keeps_row u r (fst (attempt now c v resp)).
Proof.
  apply attempt_invariant; auto.
  intros c0 w sm. apply enqueue_keeps_row.
Qed.

(** *** The URLs a run of registrations adds *)

Lemma known_map (t : DB.Table) (u : string) :
  existsb (String.eqb u) (map DB.url t)
  = existsb (fun r => String.eqb (DB.url r) u) t.
Proof.
  induction t as [|r t IH]; simpl; [reflexivity|].
  now rewrite IH, String.eqb_sym.
Qed.

Lemma unknown_iff (t : DB.Table) (u : string) :
  existsb (String.eqb u) (map DB.url t) = false <-> DB.get_url_row t u = None.
Proof. rewrite known_map. apply DBFacts.known_iff_row. Qed.

Lemma fresh_unknown (known l : list string) (v : string) :
  In v (fresh known l) -> existsb (String.eqb v) known = false.
Proof.
  revert known. induction l as [|u l IH]; intros known; simpl; [tauto|].
  destruct (existsb (String.eqb u) known) eqn:E; [apply IH|].
  intros [<- | H]; [exact E|].
  apply IH in H. rewrite existsb_app in H. now apply orb_false_iff in H.
Qed.

Lemma fresh_NoDup (known l : list string) : NoDup (fresh known l).
Proof.
  revert known. induction l as [|u l IH]; intros known; simpl; [constructor|].
  destruct (existsb (String.eqb u) known); [apply IH|].
  constructor; [|apply IH].
  intros H. apply fresh_unknown in H. rewrite existsb_app in H.
  simpl in H. rewrite String.eqb_refl, orb_true_r in H. discriminate.
Qed.

Lemma fresh_complete (known l : list string) (v : string) :
  In v l ->
  existsb (String.eqb v) known = true \/ In v (fresh known l).
Proof.
  revert known. induction l as [|u l IH]; intros known; simpl; [tauto|].
  destruct (existsb (String.eqb u) known) eqn:E.
  - intros [<- | H]; [now left | now apply IH].
  - intros [<- | H]; [right; now left|].
    destruct (IH (known ++ [u]) H) as [K | K]; [|right; now right].
    rewrite existsb_app in K. apply orb_true_iff in K as [K | K]; [now left|].
    simpl in K. rewrite orb_false_r in K. apply String.eqb_eq in K. subst v.
    right; now left.
Qed.

Lemma fresh_among (known l : list string) (v : string) :
  In v (fresh known l) -> In v l.
Proof.
  revert known. induction l as [|u l IH]; intros known; simpl; [tauto|].
  destruct (existsb (String.eqb u) known).
  - intros H. right. revert H. apply IH.
  - intros [<- | H]; [now left | right; revert H; apply IH].
Qed.

(** A run of registrations pushes, and makes known, the URLs that were
    not known, each once, in the order in which they come up. *)
Lemma enqueue_all_run now sm c l :
  pending_queue (enqueue_all now sm c l)
  = pending_queue c ++ fresh (map DB.url (db c)) l /\
  map DB.url (db (enqueue_all now sm c l))
  = map DB.url (db c) ++ fresh (map DB.url (db c)) l.
Proof.
  revert c. induction l as [|u l IH]; intros c.
  - simpl. now rewrite !app_nil_r.
  - change (enqueue_all now sm c (u :: l))
      with (enqueue_all now sm (_enqueue_new_url now c u sm) l).
    destruct (IH (_enqueue_new_url now c u sm)) as [Hq Ht].
    rewrite Hq, Ht. cbn [fresh]. rewrite known_map.
    unfold _enqueue_new_url, DB.insert_or_ignore_url.
    destruct (existsb (fun r => String.eqb (DB.url r) u) (db c)); simpl.
    + split; reflexivity.
    + rewrite map_app, <- !app_assoc. simpl. split; reflexivity.
Qed.

(** What the [try] block does to the queue: it appends the URLs its
    handler registered, none of which the store knew; a fetch that fails
    appends nothing. *)
Lemma attempt_queue now c u resp :
  exists added,
    pending_queue (fst (attempt now c u resp)) = pending_queue c ++ added /\
    (forall v, In v added -> DB.get_url_row (db c) v = None) /\
    (failure_of resp <> None -> added = []).
Proof.
  assert (Hnil : exists added : list string,
             pending_queue c = pending_queue c ++ added /\
             (forall v, In v added -> DB.get_url_row (db c) v = None) /\
             added = []).
  { exists []. rewrite app_nil_r. repeat split. intros v []. }
  assert (Hrun : forall sm c0 l,
             db c0 = db c -> pending_queue c0 = pending_queue c ->
             exists added,
               pending_queue (enqueue_all now sm c0 l) = pending_queue c ++ added /\
               (forall v, In v added -> DB.get_url_row (db c) v = None)).
  { intros sm c0 l Hd Hq. exists (fresh (map DB.url (db c)) l).
    destruct (enqueue_all_run now sm c0 l) as [K _]. rewrite K, Hd, Hq.
    split; [reflexivity|]. intros v Hv. apply unknown_iff. now apply fresh_unknown in Hv. }
  destruct resp as [m|code ct xml html]; simpl.
  - destruct Hnil as (added & H1 & H2 & H3). exists added. auto.
  - destruct (code =? 200); simpl.
    2:{ destruct Hnil as (added & H1 & H2 & H3). exists added. auto. }
    assert (Hno : forall added : list string, None <> None :> option string -> added = [])
      by (intros added H; now contradiction H).
    destruct (_looks_like_sitemap u || Str.contains ct "xml").
    + destruct xml as [|root|msg].
      * destruct Hnil as (added & H1 & H2 & H3). exists added. simpl. auto.
      * rewrite handle_sitemap_run. cbn [handled fst].
        destruct (Str.endswith (Str.lower (tag root)) "sitemapindex");
          [|destruct (Str.endswith (Str.lower (tag root)) "urlset")].
        -- destruct (Hrun 1 c (loc_urls (sitemap_locs root)) eq_refl eq_refl)
             as (added & H1 & H2).
           exists added. simpl. auto.
        -- destruct (Hrun 0 c (loc_urls (url_locs root)) eq_refl eq_refl)
             as (added & H1 & H2).
           exists added. simpl. auto.
        -- destruct Hnil as (added & H1 & H2 & H3). exists added. simpl. auto.
      * destruct Hnil as (added & H1 & H2 & H3). exists added.
        simpl. destruct (Str.endswith u ".gz"); simpl; auto.
    + rewrite handle_html_run.
      destruct (Hrun 0 (print (_save_json_record c (scrape_html u html code))
                          (Content u (soup_text html)))
                  (http_links html) eq_refl eq_refl) as (added & H1 & H2).
      exists added. unfold handled.
      destruct (first_unresolvable (hrefs html)); simpl; auto.
Qed.

(** *** The worker: failure policy *)

(** The [try] block fails in three ways only: [session.get] raises, the
    response is not a 200, or the content handler raises. *)
Lemma attempt_failure_cases now c u resp msg :
  snd (attempt now c u resp) = Failure msg <->
  failure_of resp = Some msg \/
  (failure_of resp = None /\ handler_failure u resp = Some msg).
Proof.
  destruct resp as [m|code ct xml html]; simpl.
  - split; [intros [= ->]; now left | intros [[= ->] | [[=] _]]; reflexivity].
  - destruct (code =? 200); simpl.
    2:{ split; [intros [= ->]; now left | intros [[= ->] | [[=] _]]; reflexivity]. }
    destruct (_looks_like_sitemap u || Str.contains ct "xml").
    + destruct xml as [|root|m].
      * simpl. split; [discriminate | intros [[=] | [_ [=]]]].
      * rewrite handle_sitemap_run. simpl.
        split; [discriminate | intros [[=] | [_ [=]]]].
      * simpl. destruct (Str.endswith u ".gz"); simpl.
        -- split; [intros [= ->]; now right | intros [[=] | [_ [= ->]]]; reflexivity].
        -- split; [discriminate | intros [[=] | [_ [=]]]].
    + rewrite handle_html_run. unfold handled.
      destruct (first_unresolvable (hrefs html)) as [m|]; simpl.
      * split; [intros [= ->]; now right | intros [[=] | [_ [= ->]]]; reflexivity].
      * split; [discriminate | intros [[=] | [_ [=]]]].
Qed.

(** C1. A worker processes a pending record and the [try] block fails
    with message [msg]: the fetch raises, the response is not a 200, or
    the handler of the content raises after it has registered the links
    [added]. Then the record's [retry_count] is one more than before and
    its [last_error] is [msg]. If the new count is below [MAX_RETRIES]
    the record is pending and the URL has been pushed at the back of the
    queue; if the new count has reached [MAX_RETRIES] the record is in
    the error state and the URL has not been pushed. Nothing else enters
    the queue but [added]: URLs the store did not know, none when it is
    the fetch that failed. *)
Theorem failed_fetch_retry_policy
    (now : string) (c : State) (u : string) (resp : Fetch) (row : DB.Row)
    (msg : string) :
  DB.get_url_row (db c) u = Some row ->
  DB.status row = DB.pending ->
  snd (attempt now c u resp) = Failure msg ->
  let c' := _process_url_with_db_check now c resp u in
  exists row' added,
    DB.get_url_row (db c') u = Some row' /\
    DB.retry_count row' = DB.retry_count row + 1 /\
    DB.last_error row' = Some msg /\
    pending_queue (fst (attempt now c u resp)) = pending_queue c ++ added /\
    (forall v, In v added -> DB.get_url_row (db c) v = None) /\
    (failure_of resp = Some msg -> added = []) /\
    (DB.retry_count row' < MAX_RETRIES ->
     DB.status row' = DB.pending /\
     pending_queue c' = pending_queue c ++ added ++ [u]) /\
    (MAX_RETRIES <= DB.retry_count row' ->
     DB.status row' = DB.error /\
     pending_queue c' = pending_queue c ++ added).
Proof.
  intros Hrow Hst Hfail c'.
  pose proof (attempt_keeps_row now c u resp u row Hrow) as K.
  destruct (attempt_queue now c u resp) as (added & Hq & Hnew & Hnil).
  unfold c', _process_url_with_db_check. rewrite Hrow, Hst.
  cbn [DB.status_eqb negb].
  destruct (attempt now c u resp) as [c1 o]. simpl in Hfail, K, Hq. subst o.
  unfold keeps_row in K. unfold record_outcome.
  destruct (DB.retry_count row + 1 <? MAX_RETRIES) eqn:E.
  - apply Z.ltb_lt in E.
    eexists. exists added. split.
    { simpl. apply DBFacts.get_url_row_update_same. exact K. }
    simpl. rewrite Hq, <- app_assoc.
    repeat split; intros; try reflexivity; auto; try lia.
    apply Hnil. congruence.
  - apply Z.ltb_ge in E.
    eexists. exists added. split.
    { simpl. apply DBFacts.get_url_row_update_same. exact K. }
    simpl. rewrite Hq.
    repeat split; intros; try reflexivity; auto; try lia.
    apply Hnil. congruence.
Qed.

(** C1 at a page whose second anchor cannot be resolved: the first link
    is registered, [urljoin] raises on the second, and the fetched URL,
    at its first failure, goes back to the queue behind the new link. *)
Lemma failed_fetch_retry_policy_witness :
  let row := DB.mkRow 1 "https://example.com/" DB.pending (Some "t0")
               None 0 0 None in
  let c := mkState [row] [] None [] [] in
  let page := mkHtml None ""
                [Resolved "https://example.com/ok";
                 Unresolvable "Invalid IPv6 URL"] in
  let resp := Response 200 "text/html" XmlError page in
  let c' := _process_url_with_db_check "t1" c resp "https://example.com/" in
  exists row' added,
    DB.get_url_row (db c') "https://example.com/" = Some row' /\
    DB.retry_count row' = DB.retry_count row + 1 /\
    DB.last_error row' = Some "Invalid IPv6 URL" /\
    pending_queue (fst (attempt "t1" c "https://example.com/" resp))
    = pending_queue c ++ added /\
    (forall v, In v added -> DB.get_url_row (db c) v = None) /\
    (failure_of resp = Some "Invalid IPv6 URL" -> added = []) /\
    (DB.retry_count row' < MAX_RETRIES ->
     DB.status row' = DB.pending /\
     pending_queue c' = pending_queue c ++ added ++ ["https://example.com/"]) /\
    (MAX_RETRIES <= DB.retry_count row' ->
     DB.status row' = DB.error /\
     pending_queue c' = pending_queue c ++ added).
Proof.
  intros row c page resp.
  apply (failed_fetch_retry_policy "t1" c "https://example.com/" resp row
           "Invalid IPv6 URL"); reflexivity.
Defined.

(** Such a turn, evaluated from the worker loop: the new link and then
    the fetched URL are in the queue, the record has one failure. *)
Lemma failed_handler_run :
  let row := DB.mkRow 1 "https://example.com/" DB.pending (Some "t0")
               None 0 0 None in
  let c := mkState [row] ["https://example.com/"] None [] [] in
  let page := mkHtml None ""
                [Resolved "https://example.com/ok";
                 Unresolvable "Invalid IPv6 URL"] in
  let c' := _worker_loop "t1" c
              (fun _ => Response 200 "text/html" XmlError page) in
  db c' = [DB.mkRow 1 "https://example.com/" DB.pending (Some "t1")
             (Some "Invalid IPv6 URL") 1 0 None;
           DB.mkRow 2 "https://example.com/ok" DB.pending (Some "t1")
             None 0 0 None] /\
  pending_queue c' = ["https://example.com/ok"; "https://example.com/"].
Proof. split; reflexivity. Qed.

(** A record that has failed twice and gets a 503 ends in the error
    state and leaves the queue. *)
Lemma third_failure_run :
  let row := DB.mkRow 1 "https://example.com/" DB.pending (Some "t0")
               (Some "HTTP 500") 2 0 None in
  let c := mkState [row] ["https://example.com/"] None [] [] in
  let c' := _worker_loop "t1" c
              (fun _ => Response 503 "text/html" XmlError (mkHtml None "" [])) in
  db c' = [DB.mkRow 1 "https://example.com/" DB.error (Some "t1")
             (Some "HTTP 503") 3 0 None] /\
  pending_queue c' = [].
Proof. split; reflexivity. Qed.

(** *** The worker: a successful visit *)

(** What a successful visit writes: the status, the time stamp and the
    sitemap flag. [last_error=None] adds no [last_error = ?] to the SET
    clause, so the column keeps the value it had. *)
Lemma visit_keeps_last_error now c u resp row sm :
  DB.get_url_row (db c) u = Some row ->
  DB.status row = DB.pending ->
  snd (attempt now c u resp) = Success sm ->
  DB.get_url_row (db (_process_url_with_db_check now c resp u)) u
  = Some (DB.mkRow (DB.id row) (DB.url row) DB.visited (Some now)
            (DB.last_error row) (DB.retry_count row) sm
            (DB.pause_reason row)).
Proof.
  intros Hrow Hst Hok.
  pose proof (attempt_keeps_row now c u resp u row Hrow) as K.
  unfold _process_url_with_db_check. rewrite Hrow, Hst.
  cbn [DB.status_eqb negb].
  destruct (attempt now c u resp) as [c1 o]. simpl in Hok, K. subst o.
  unfold record_outcome. simpl.
  now rewrite (DBFacts.get_url_row_update_same _ _ _ _ _ _ _ _ _ _ K).
Qed.

(** C2, evaluated. The record of [https://example.com/] has failed once
    ([last_error = "HTTP 500"], [retry_count = 1]) and is pending; the
    next fetch returns a 200 page. The record is then visited, and its
    [last_error] is still ["HTTP 500"], not NULL. *)
Theorem visit_after_failure_keeps_last_error :
  let row := DB.mkRow 1 "https://example.com/" DB.pending (Some "t1")
               (Some "HTTP 500") 1 0 None in
  let c := mkState [row] ["https://example.com/"] None [] [] in
  let page := Response 200 "text/html" XmlError (mkHtml None "" []) in
  let c' := _worker_loop "t2" c (fun _ => page) in
  DB.get_url_row (db c') "https://example.com/"
  = Some (DB.mkRow 1 "https://example.com/" DB.visited (Some "t2")
            (Some "HTTP 500") 1 0 None) /\
  (forall r, DB.get_url_row (db c') "https://example.com/" = Some r ->
             DB.last_error r <> None).
Proof.
  split; [reflexivity|].
  intros r H. vm_compute in H. injection H as <-. discriminate.
Qed.

(** *** Link extraction and the scheme filter *)

(** On a page whose anchors all resolve to URLs without [http://] or
    [https://] in front, the HTML path registers nothing: it prints the
    content line and leaves the store and the queue alone. *)
Lemma handle_html_drops_non_http now c base html :
  (forall href, In href (resolved_hrefs (hrefs html)) ->
                has_http_scheme (_normalize_url href) = false) ->
  fst (_handle_html_content now c base html)
  = print c (Content base (soup_text html)).
Proof.
  intros H. rewrite handle_html_run. cbn [fst]. unfold http_links.
  replace (filter has_http_scheme
             (map _normalize_url (resolved_hrefs (hrefs html)))) with (@nil string);
    [reflexivity|].
  induction (resolved_hrefs (hrefs html)) as [|href l IH]; [reflexivity|].
  simpl. rewrite (H href (or_introl eq_refl)).
  apply IH. intros h Hh. apply H. now right.
Qed.

(** Registering a URL the store does not know inserts it as pending and
    pushes it; [_enqueue_new_url] itself looks at no scheme. *)
Lemma enqueue_unknown now c u sm :
  DB.get_url_row (db c) u = None ->
  _enqueue_new_url now c u sm
  = put (with_db c (db c ++ [DB.mkRow (DB.next_id (db c)) u DB.pending
                               (Some now) None 0 sm None])) u.
Proof.
  intros H. unfold _enqueue_new_url, DB.insert_or_ignore_url.
  apply DBFacts.known_iff_row in H. now rewrite H.
Qed.

(** The sitemap path has no scheme test: a [loc] whose text is not empty
    after trimming and is not yet known is registered, whatever stands in
    front of it. *)
Lemma handle_sitemap_registers_loc now c v root_tag text u :
  Str.endswith (Str.lower root_tag) "sitemapindex" = false ->
  Str.endswith (Str.lower root_tag) "urlset" = true ->
  loc_url (Some text) = Some u ->
  DB.get_url_row (db c) u = None ->
  _handle_sitemap_content now c v (XmlOk (mkXml root_tag [] [Some text]))
  = (print
       (put (with_db c (db c ++ [DB.mkRow (DB.next_id (db c)) u DB.pending
                                   (Some now) None 0 0 None])) u)
       (SitemapParsed v 1),
     None).
Proof.
  intros Hidx Hset Hloc Hnew. unfold _handle_sitemap_content.
  cbn [tag url_locs]. rewrite Hidx, Hset. cbn [fold_left]. rewrite Hloc.
  now rewrite (enqueue_unknown _ _ _ _ Hnew).
Qed.

(** C6, evaluated on the sitemap path. The worker fetches the sitemap
    [https://example.com/sitemap.xml]; its [urlset] has one entry,
    [<loc>ftp://example.com/a</loc>]. The URL carries neither [http://]
    nor [https://], and yet it is inserted as a pending record and pushed
    onto the queue. *)
Theorem sitemap_registers_non_http_link :
  let row := DB.mkRow 1 "https://example.com/sitemap.xml" DB.pending
               (Some "t0") None 0 1 None in
  let c := mkState [row] ["https://example.com/sitemap.xml"] None [] [] in
  let doc := mkXml "{http://www.sitemaps.org/schemas/sitemap/0.9}urlset" []
               [Some "ftp://example.com/a"] in
  let resp := Response 200 "application/xml" (XmlOk doc) (mkHtml None "" []) in
  let c' := _worker_loop "t1" c (fun _ => resp) in
  has_http_scheme (_normalize_url "ftp://example.com/a") = false /\
  DB.get_url_row (db c) "ftp://example.com/a" = None /\
  DB.get_url_row (db c') "ftp://example.com/a"
  = Some (DB.mkRow 2 "ftp://example.com/a" DB.pending (Some "t1") None 0 0
            None) /\
  pending_queue c' = ["ftp://example.com/a"].
Proof. repeat split. Qed.

(** *** Seeding *)


(** The one seed that [add_seed_url] treats as invalid is a URL that is
    empty once trimmed: the call then prints "Invalid URL." and changes
    nothing else. *)
Lemma seed_empty_url_rejected
    (netloc : string -> option string) (now : string) (c : State)
    (u : string) :
  Str.strip u = "" ->
  add_seed_url netloc now c u = print c InvalidUrl.
Proof.
  intros H. unfold add_seed_url, _normalize_url. now rewrite H.
Qed.






(** The other invalid inputs on the same state: an empty seed, a resume
    of an unknown URL and of a pending one, a pause and a resume by a
    prefix that matches nothing, a number beyond the list. *)
Lemma invalid_inputs_run :
  let row := DB.mkRow 1 "https://example.com/a" DB.pending (Some "t0") None 0
               0 None in
  let c := mkState [row] ["https://example.com/a"] (Some "example.com") [] [] in
  let go := run (fun _ => None) "t1" c in
  go (Seed "  ") = print c InvalidUrl /\
  go (Resume "https://example.com/b")
  = print c (UrlNotFound "https://example.com/b") /\
  go (Resume "https://example.com/a")
  = print c (UrlNotPaused "https://example.com/a") /\
  go (PausePrefix "https://other.org/")
  = print c (PausedPrefix 0 "https://other.org/" 0) /\
  go (ResumePrefix "https://example.com/")
  = print c (ResumedPrefix 0 "https://example.com/") /\
  go (ResumeNumber ["https://example.com/p"] 2) = print c (IndexOutOfRange 2).
Proof. repeat split. Qed.

(** Every other seed the store does not know is accepted as it is,
    whatever it looks like. *)
Lemma seed_nonempty_unknown_inserted netloc now c u :
  Str.strip u <> "" ->
  DB.get_url_row (db c) (Str.strip u) = None ->
  let c' := add_seed_url netloc now c u in
  db c' = db c ++ [DB.mkRow (DB.next_id (db c)) (Str.strip u) DB.pending
                     (Some now) None 0
                     (if _looks_like_sitemap (Str.strip u) then 1 else 0)
                     None] /\
  pending_queue c' = pending_queue c ++ [Str.strip u].
Proof.
  intros Hne Hnew c'.
  assert (Hn : _normalize_url u = Str.strip u).
  { unfold _normalize_url. destruct (String.eqb (Str.strip u) "") eqn:E.
    - apply String.eqb_eq in E. contradiction.
    - now destruct (_ || _). }
  unfold c', add_seed_url. rewrite Hn.
  apply String.eqb_neq in Hne. rewrite Hne.
  unfold DB.insert_or_ignore_url.
  apply DBFacts.known_iff_row in Hnew. rewrite Hnew.
  destruct (no_main_domain _); [destruct (host_of netloc (Str.strip u))|];
    split; reflexivity.
Qed.

End CrawlerFacts.

(* ================================================================== *)
(** ** Pausing and resuming by prefix *)
(* ================================================================== *)

Module PrefixFacts.
Import Crawler.

Lemma combine_map_same {A B : Type} (f : A -> B) (l : list A) :
  combine l (map f l) = map (fun a => (a, f a)) l.
Proof. induction l as [|a l IH]; simpl; [reflexivity | now rewrite IH]. Qed.

(** The rows an operation [map f] moved into [st], read off the table. *)
Lemma moved_to_map (st : DB.Status) (f : DB.Row -> DB.Row) (t : DB.Table) :
  DB.moved_to st t (map f t)
  = map DB.url
      (filter (fun r => negb (DB.status_eqb (DB.status r) st)
                        && DB.status_eqb (DB.status (f r)) st) t).
Proof.
  unfold DB.moved_to. rewrite combine_map_same, filter_map_swap, map_map.
  reflexivity.
Qed.

(** [put] in a loop appends to the queue and touches nothing else. *)
Lemma fold_put (l : list string) (c : State) :
  fold_left put l c
  = mkState (db c) (pending_queue c ++ l) (main_domain c) (scraped_data c)
      (stdout c).
Proof.
  revert c. induction l as [|u l IH]; intros c; simpl.
  - rewrite app_nil_r. now destruct c.
  - rewrite IH. simpl. now rewrite <- app_assoc.
Qed.

(** The UPDATE of [pause_prefix] reaches every pending record whose URL
    literally starts with the prefix. *)
Lemma literal_prefix_selected (prefix : string) (r : DB.Row) :
  DB.status r = DB.pending ->
  Str.startswith (DB.url r) prefix = true ->
  DB.selected prefix DB.pending r = true.
Proof.
  intros Hst Hp. unfold DB.selected.
  now rewrite (StrFacts.startswith_like_prefix _ _ Hp), Hst.
Qed.

(** [pause_prefix] leaves every record that is not pending as it is. *)
Lemma pause_prefix_not_pending_untouched now t prefix reason r r' :
  In (r, r') (combine t (fst (DB.pause_prefix now t prefix reason))) ->
  DB.status r <> DB.pending -> r' = r.
Proof.
  unfold DB.pause_prefix. cbn [fst]. rewrite combine_map_same.
  intros Hin Hst. apply in_map_iff in Hin as (x & [= <- <-] & _).
  unfold DB.selected. apply DBFacts.status_eqb_neq in Hst.
  now rewrite Hst, andb_false_r.
Qed.

(** The URLs [pause_prefix] moved to paused are those of the rows its
    WHERE clause selects, and the count it returns is their number. *)
Lemma pause_prefix_moved now t prefix reason :
  DB.moved_to DB.paused t (fst (DB.pause_prefix now t prefix reason))
  = map DB.url (filter (DB.selected prefix DB.pending) t) /\
  snd (DB.pause_prefix now t prefix reason)
  = Z.of_nat (List.length
                (DB.moved_to DB.paused t
                   (fst (DB.pause_prefix now t prefix reason)))).
Proof.
  assert (H : DB.moved_to DB.paused t (fst (DB.pause_prefix now t prefix reason))
              = map DB.url (filter (DB.selected prefix DB.pending) t)).
  { unfold DB.pause_prefix. cbn [fst]. rewrite moved_to_map.
    f_equal. apply filter_ext. intros r. unfold DB.selected.
    destruct (Str.like_prefix prefix (DB.url r));
      destruct (DB.status r) eqn:E; simpl; rewrite ?E; reflexivity. }
  split; [exact H|].
  rewrite H, length_map. reflexivity.
Qed.

(** C3, evaluated. The store holds one pending record,
    [https://example.com/Blog/1], and the operator pauses the prefix
    [https://example.com/blog]. The URL does not start with that prefix
    (capital B), but [LIKE] folds ASCII case: the record is paused and
    counted. *)
Theorem pause_prefix_pauses_beyond_literal_prefix :
  let row := DB.mkRow 1 "https://example.com/Blog/1" DB.pending (Some "t0")
               None 0 0 None in
  Str.startswith (DB.url row) "https://example.com/blog" = false /\
  DB.pause_prefix "t1" [row] "https://example.com/blog" "user-pause-prefix"
  = ([DB.mkRow 1 "https://example.com/Blog/1" DB.paused (Some "t1") None 0 0
        (Some "user-pause-prefix")], 1).
Proof. split; reflexivity. Qed.

(** The same with the wild cards of [LIKE]: the prefix
    [https://example.com/a_] pauses [https://example.com/ab], and the
    prefix [https://%.com/] pauses every [https] URL with [.com/] in it. *)
Example pause_prefix_wildcards :
  let row := DB.mkRow 1 "https://example.com/ab" DB.pending (Some "t0") None
               0 0 None in
  Str.startswith (DB.url row) "https://example.com/a_" = false /\
  snd (DB.pause_prefix "t1" [row] "https://example.com/a_" "r") = 1 /\
  Str.startswith (DB.url row) "https://%.com/" = false /\
  snd (DB.pause_prefix "t1" [row] "https://%.com/" "r") = 1.
Proof. repeat split. Qed.

(** The queue side of [Crawler.pause_prefix] tests the literal prefix, so
    on the input above the record is paused in the store while its queue
    entry stays. *)
Example pause_prefix_store_and_queue_disagree :
  let row := DB.mkRow 1 "https://example.com/Blog/1" DB.pending (Some "t0")
               None 0 0 None in
  let c := mkState [row] ["https://example.com/Blog/1"] None [] [] in
  let c' := pause_prefix "t1" c "https://example.com/blog" "r" in
  map DB.status (db c') = [DB.paused] /\
  pending_queue c' = ["https://example.com/Blog/1"].
Proof. split; reflexivity. Qed.

(** C4, evaluated. The store holds [https://a.com/X/1], which the
    operator paused earlier, and the pending [https://a.com/x/2]; no
    paused record starts with the prefix [https://a.com/x]. The pause by
    that prefix moves [https://a.com/x/2] alone to paused. The resume by
    the same prefix selects with [LIKE], which folds ASCII case: it
    returns [https://a.com/X/1] as well, sets it to pending, clears its
    pause reason and pushes it onto the queue. What is restored is not
    the set the pause had moved. *)
Theorem resume_prefix_resumes_beyond_literal_prefix :
  let c :=
    mkState
      [DB.mkRow 1 "https://a.com/X/1" DB.paused (Some "t0") None 0 0
         (Some "user-pause");
       DB.mkRow 2 "https://a.com/x/2" DB.pending (Some "t0") None 0 0 None]
      ["https://a.com/x/2"] None [] [] in
  let c1 := pause_prefix "t1" c "https://a.com/x" "user-pause-prefix" in
  let c2 := resume_prefix "t2" c1 "https://a.com/x" in
  (forall r, In r (db c) -> DB.status r = DB.paused ->
             Str.startswith (DB.url r) "https://a.com/x" = false) /\
  DB.moved_to DB.paused (db c) (db c1) = ["https://a.com/x/2"] /\
  fst (snd (DB.resume_prefix "t2" (db c1) "https://a.com/x"))
  = ["https://a.com/X/1"; "https://a.com/x/2"] /\
  DB.moved_to DB.pending (db c1) (db c2)
  = ["https://a.com/X/1"; "https://a.com/x/2"] /\
  db c2
  = [DB.mkRow 1 "https://a.com/X/1" DB.pending (Some "t2") None 0 0 None;
     DB.mkRow 2 "https://a.com/x/2" DB.pending (Some "t2") None 0 0 None] /\
  pending_queue c1 = [] /\
  pending_queue c2 = ["https://a.com/X/1"; "https://a.com/x/2"].
Proof.
  split; [|repeat split].
  intros r [<-|[<-|[]]] H; [reflexivity | discriminate H].
Qed.

(** The round trip holds when "matching the prefix" is read as the
    store reads it. Let no record that is already paused match the
    prefix in the sense of [url LIKE prefix%]. Then [resume_prefix] run
    after [pause_prefix] with the same prefix undoes it: the URLs it returns
    and the URLs of the rows it moves to pending are the URLs the pause
    moved to paused; in the resulting table each of those rows is pending
    with [pause_reason] NULL and every other row is as it was before the
    pause; and exactly those URLs are pushed onto the queue. *)
Theorem resume_prefix_after_pause_prefix
    (now1 now2 : string) (c : State) (prefix reason : string) :
  (forall r, In r (db c) -> DB.status r = DB.paused ->
             Str.like_prefix prefix (DB.url r) = false) ->
  let c1 := pause_prefix now1 c prefix reason in
  let c2 := resume_prefix now2 c1 prefix in
  let moved := DB.moved_to DB.paused (db c) (db c1) in
  let resumed := fst (snd (DB.resume_prefix now2 (db c1) prefix)) in
  Permutation resumed moved /\
  Permutation (DB.moved_to DB.pending (db c1) (db c2)) moved /\
  db c2
  = map (fun r => if DB.selected prefix DB.pending r
                  then DB.mkRow (DB.id r) (DB.url r) DB.pending (Some now2)
                         (DB.last_error r) (DB.retry_count r)
                         (DB.is_sitemap r) None
                  else r) (db c) /\
  map DB.status (db c2) = map DB.status (db c) /\
  pending_queue c2 = pending_queue c1 ++ resumed.
Proof.
  intros Hno c1 c2 moved resumed.
  set (f1 := fun r => if DB.selected prefix DB.pending r
                      then DB.set_paused now1 reason r else r).
  set (f2 := fun r => if DB.selected prefix DB.paused r
                      then DB.set_pending now2 r else r).
  assert (Hdb1 : db c1 = map f1 (db c)).
  { unfold c1, pause_prefix, DB.pause_prefix, _remove_from_pending_queue.
    cbn [with_db db pending_queue].
    destruct (remove_loop _ _ _ _). reflexivity. }
  assert (Hdb2 : db c2 = map f2 (db c1)).
  { unfold c2, resume_prefix, DB.resume_prefix. rewrite fold_put. reflexivity. }
  assert (Hsel : forall r, In r (db c) ->
            DB.selected prefix DB.paused (f1 r) = DB.selected prefix DB.pending r).
  { intros r Hin. unfold f1, DB.selected.
    destruct (Str.like_prefix prefix (DB.url r)) eqn:L;
      destruct (DB.status r) eqn:E; simpl; rewrite ?L, ?E; try reflexivity.
    specialize (Hno r Hin E). congruence. }
  assert (Hmoved : moved = map DB.url (filter (DB.selected prefix DB.pending) (db c))).
  { unfold moved, c1. unfold pause_prefix, _remove_from_pending_queue.
    pose proof (proj1 (pause_prefix_moved now1 (db c) prefix reason)) as K.
    destruct (DB.pause_prefix now1 (db c) prefix reason) as [t1 n].
    cbn [with_db db pending_queue]. destruct (remove_loop _ _ _ _). exact K. }
  assert (Hresumed : resumed = moved).
  { unfold resumed, DB.resume_prefix. cbn [fst snd]. rewrite Hdb1, Hmoved.
    rewrite filter_map_swap, map_map.
    rewrite (filter_ext_in _ _ _ Hsel).
    apply map_ext. intros r. unfold f1.
    now destruct (DB.selected prefix DB.pending r). }
  assert (Hrows : db c2
            = map (fun r => if DB.selected prefix DB.pending r
                            then DB.mkRow (DB.id r) (DB.url r) DB.pending
                                   (Some now2) (DB.last_error r)
                                   (DB.retry_count r) (DB.is_sitemap r) None
                            else r) (db c)).
  { rewrite Hdb2, Hdb1, map_map. apply map_ext_in. intros r Hin.
    unfold f2. rewrite (Hsel r Hin). unfold f1.
    now destruct (DB.selected prefix DB.pending r). }
  split; [now rewrite Hresumed|].
  split.
  { replace (DB.moved_to DB.pending (db c1) (db c2)) with resumed;
      [now rewrite Hresumed|].
    rewrite Hdb2, moved_to_map. unfold resumed, DB.resume_prefix. cbn [fst snd].
    f_equal. apply filter_ext. intros r. unfold f2, DB.selected.
    destruct (Str.like_prefix prefix (DB.url r));
      destruct (DB.status r) eqn:E; simpl; rewrite ?E; reflexivity. }
  split; [exact Hrows|].
  split.
  { rewrite Hrows, map_map. apply map_ext. intros r. unfold DB.selected.
    destruct (Str.like_prefix prefix (DB.url r));
      destruct (DB.status r) eqn:E; simpl; rewrite ?E; reflexivity. }
  unfold c2, resume_prefix.
  fold resumed.
  destruct (DB.resume_prefix now2 (db c1) prefix) as [t2 [urls n]] eqn:E.
  unfold resumed. cbn [fst snd]. rewrite fold_put. reflexivity.
Qed.

(** The round trip on a store with two pending records under the prefix,
    a visited one under it, and a record of another site that was paused
    before. *)
Lemma resume_prefix_after_pause_prefix_witness :
  let c :=
    mkState
      [DB.mkRow 1 "https://a.com/x/1" DB.pending (Some "t0") None 0 0 None;
       DB.mkRow 2 "https://a.com/x/2" DB.visited (Some "t0") None 0 0 None;
       DB.mkRow 3 "https://b.org/" DB.paused (Some "t0") None 0 0 (Some "old");
       DB.mkRow 4 "https://a.com/x/3" DB.pending (Some "t0") None 1 0 None]
      ["https://a.com/x/1"; "https://b.org/q"; "https://a.com/x/3"]
      None [] [] in
  let c1 := pause_prefix "t1" c "https://a.com/x" "user-pause-prefix" in
  let c2 := resume_prefix "t2" c1 "https://a.com/x" in
  let moved := DB.moved_to DB.paused (db c) (db c1) in
  let resumed :=
    fst (snd (DB.resume_prefix "t2" (db c1) "https://a.com/x")) in
  Permutation resumed moved /\
  Permutation (DB.moved_to DB.pending (db c1) (db c2)) moved /\
  db c2
  = map (fun r => if DB.selected "https://a.com/x" DB.pending r
                  then DB.mkRow (DB.id r) (DB.url r) DB.pending (Some "t2")
                         (DB.last_error r) (DB.retry_count r)
                         (DB.is_sitemap r) None
                  else r) (db c) /\
  map DB.status (db c2) = map DB.status (db c) /\
  pending_queue c2 = pending_queue c1 ++ resumed.
Proof.
  intros c.
  apply (resume_prefix_after_pause_prefix "t1" "t2" c "https://a.com/x"
           "user-pause-prefix").
  intros r [<-|[<-|[<-|[<-|[]]]]] H; try discriminate H; reflexivity.
Defined.

(** On that store the pause moves the two pending records and the resume
    brings back those two, in the store and in the queue. *)
Example pause_then_resume_run :
  let c :=
    mkState
      [DB.mkRow 1 "https://a.com/x/1" DB.pending (Some "t0") None 0 0 None;
       DB.mkRow 2 "https://a.com/x/2" DB.visited (Some "t0") None 0 0 None;
       DB.mkRow 3 "https://b.org/" DB.paused (Some "t0") None 0 0 (Some "old");
       DB.mkRow 4 "https://a.com/x/3" DB.pending (Some "t0") None 1 0 None]
      ["https://a.com/x/1"; "https://b.org/q"; "https://a.com/x/3"]
      None [] [] in
  let c1 := pause_prefix "t1" c "https://a.com/x" "user-pause-prefix" in
  let c2 := resume_prefix "t2" c1 "https://a.com/x" in
  map DB.status (db c1) = [DB.paused; DB.visited; DB.paused; DB.paused] /\
  pending_queue c1 = ["https://b.org/q"] /\
  map DB.status (db c2) = [DB.pending; DB.visited; DB.paused; DB.pending] /\
  pending_queue c2
  = ["https://b.org/q"; "https://a.com/x/1"; "https://a.com/x/3"].
Proof. repeat split. Qed.

End PrefixFacts.

(* ================================================================== *)
(** ** Invariants of the frontier *)
(* ================================================================== *)

Module InvariantFacts.
Import Crawler.

(** *** Tables *)

(** With distinct URLs, the row found under a URL is the only one. *)
Lemma unique_row (t : DB.Table) (r : DB.Row) :
  NoDup (map DB.url t) -> In r t -> DB.get_url_row t (DB.url r) = Some r.
Proof.
  unfold DB.get_url_row. induction t as [|x t IH]; simpl; [tauto|].
  intros Hnd [->|Hin].
  - now rewrite String.eqb_refl.
  - inversion Hnd as [|? ? Hx Hnd']; subst.
    destruct (String.eqb (DB.url x) (DB.url r)) eqn:E.
    + apply String.eqb_eq in E. exfalso. apply Hx. rewrite E.
      now apply in_map.
    + now apply IH.
Qed.

Lemma known_of_In (t : DB.Table) (r : DB.Row) :
  In r t -> DB.get_url_row t (DB.url r) <> None.
Proof.
  intros Hin H. apply DBFacts.known_iff_row in H.
  assert (K : existsb (fun x => String.eqb (DB.url x) (DB.url r)) t = true).
  { apply existsb_exists. exists r. split; [exact Hin | apply String.eqb_refl]. }
  congruence.
Qed.

(** A row-wise rewrite that keeps the URL column commutes with lookup. *)
Lemma get_url_row_map (f : DB.Row -> DB.Row) (t : DB.Table) (u : string) :
  (forall r, DB.url (f r) = DB.url r) ->
  DB.get_url_row (map f t) u = option_map f (DB.get_url_row t u).
Proof.
  intros Hf. unfold DB.get_url_row. induction t as [|x t IH]; simpl; [reflexivity|].
  rewrite Hf. now destruct (String.eqb (DB.url x) u).
Qed.

Lemma next_id_above (t : DB.Table) (r : DB.Row) :
  In r t -> DB.id r < DB.next_id t.
Proof.
  unfold DB.next_id. induction t as [|x t IH]; cbn [map fold_right In]; [tauto|].
  intros [->|Hin]; [lia|]. specialize (IH Hin). lia.
Qed.

Lemma sorted_snoc {A : Type} (R : A -> A -> Prop) (l : list A) (a : A) :
  StronglySorted R l -> Forall (fun x => R x a) l -> StronglySorted R (l ++ [a]).
Proof.
  induction 1 as [|x l Hs IH Hx]; intros Ha; simpl.
  - repeat constructor.
  - inversion Ha; subst. constructor; [now apply IH|].
    apply Forall_app. split; [exact Hx | now constructor].
Qed.

Lemma sorted_map_same {A : Type} (R : A -> A -> Prop) (f : A -> A) (l : list A) :
  (forall a b, R a b -> R (f a) (f b)) ->
  StronglySorted R l -> StronglySorted R (map f l).
Proof.
  intros Hf. induction 1 as [|x l Hs IH Hx]; simpl; constructor; [exact IH|].
  apply Forall_map. revert Hx. apply Forall_impl. intros a. apply Hf.
Qed.

(** *** The three shapes of a change *)

(** A row-wise rewrite that keeps [id] and [url] and turns good rows into
    good rows, with a queue that still holds the known URLs it needs. *)
Lemma consistent_map (f : DB.Row -> DB.Row) (t : DB.Table) (q q' : list string) :
  (forall r, DB.id (f r) = DB.id r /\ DB.url (f r) = DB.url r) ->
  (forall r, In r t -> row_ok r -> row_ok (f r)) ->
  (forall u, In u q' -> DB.get_url_row t u <> None) ->
  (forall r, In r t -> DB.status (f r) = DB.pending -> In (DB.url r) q') ->
  consistent t q -> consistent (map f t) q'.
Proof.
  intros Hf Hok Hq Hp (Hnd & Hs & Hrows & _ & _).
  repeat split.
  - rewrite map_map. erewrite map_ext; [exact Hnd|]. intros r. apply Hf.
  - apply sorted_map_same; [|exact Hs].
    intros a b. destruct (Hf a) as [-> _], (Hf b) as [-> _]. tauto.
  - apply Forall_map. rewrite Forall_forall in *. auto.
  - intros u Hu. rewrite get_url_row_map by (intros r; apply Hf).
    specialize (Hq u Hu). now destruct (DB.get_url_row t u).
  - intros r' Hin Hst. apply in_map_iff in Hin as (r & <- & Hin).
    destruct (Hf r) as [_ ->]. now apply Hp.
Qed.

(** Registering a URL: a fresh pending row at the end and the URL at the
    back of the queue, or nothing at all. *)
Lemma consistent_insert now (t : DB.Table) (q : list string) (u : string) (sm : Z) :
  consistent t q ->
  let result := DB.insert_or_ignore_url now t u DB.pending sm in
  consistent (fst result) (if snd result then q ++ [u] else q).
Proof.
  intros (Hnd & Hs & Hrows & Hq & Hp). unfold DB.insert_or_ignore_url.
  destruct (existsb _ t) eqn:E; simpl; [now repeat split|].
  apply DBFacts.known_iff_row in E.
  repeat split.
  - rewrite map_app. simpl. apply NoDup_app.
    + exact Hnd.
    + repeat constructor. simpl. tauto.
    + intros v Hv [<-|[]]. apply in_map_iff in Hv as (r & Hr & Hin).
      apply (known_of_In t r Hin). now rewrite Hr.
  - apply sorted_snoc; [exact Hs|]. apply Forall_forall. intros r Hin.
    simpl. now apply next_id_above.
  - apply Forall_app. split; [exact Hrows|]. repeat constructor; simpl;
      try lia; try discriminate; try congruence.
  - intros v Hv. rewrite DBFacts.get_url_row_app. apply in_app_iff in Hv as [Hv|[<-|[]]].
    + specialize (Hq v Hv). now destruct (DB.get_url_row t v).
    + rewrite E. unfold DB.get_url_row. simpl. now rewrite String.eqb_refl.
  - intros r Hin Hst. apply in_app_iff. apply in_app_iff in Hin as [Hin|[<-|[]]].
    + left. now apply Hp.
    + right. now left.
Qed.

(** An UPDATE of the one row stored under [u]. *)
Lemma consistent_update now (t : DB.Table) (q q' : list string) (u : string)
    (row : DB.Row) st err sm reason clr inc :
  consistent t q ->
  DB.get_url_row t u = Some row ->
  row_ok (DB.set_fields now st err sm reason clr inc row) ->
  (st = DB.pending -> In u q') ->
  (forall v, In v q' -> v = u \/ In v q) ->
  (forall r, In r t -> DB.url r <> u -> DB.status r = DB.pending ->
             In (DB.url r) q') ->
  consistent (DB.update_url_status now t u st err sm reason clr inc) q'.
Proof.
  intros Hc Hrow Hok Hst Hq' Hp.
  pose proof Hc as (Hnd & _ & _ & Hq & _).
  unfold DB.update_url_status. apply (consistent_map _ t q q'); [| | | |exact Hc].
  - intros r. now destruct (String.eqb (DB.url r) u).
  - intros r Hin Hr. destruct (String.eqb (DB.url r) u) eqn:E; [|exact Hr].
    apply String.eqb_eq in E. pose proof (unique_row t r Hnd Hin) as K.
    rewrite E, Hrow in K. injection K as <-. exact Hok.
  - intros v Hv. destruct (Hq' v Hv) as [->|Hv']; [congruence | now apply Hq].
  - intros r Hin. destruct (String.eqb (DB.url r) u) eqn:E.
    + apply String.eqb_eq in E. simpl. intros ->. rewrite E. now apply Hst.
    + apply String.eqb_neq in E. now apply Hp.
Qed.

(** Dropping a queue entry whose record is unknown or not pending. *)
Lemma consistent_drop_head (t : DB.Table) (q : list string) (u : string) :
  consistent t (u :: q) ->
  (forall r, DB.get_url_row t u = Some r -> DB.status r <> DB.pending) ->
  consistent t q.
Proof.
  intros (Hnd & Hs & Hrows & Hq & Hp) Hu. repeat split; try assumption.
  - intros v Hv. apply Hq. now right.
  - intros r Hin Hst. destruct (Hp r Hin Hst) as [E|H]; [|exact H].
    exfalso. apply (Hu r); [|exact Hst]. rewrite E. now apply unique_row.
Qed.

(** *** Link registration, with [pre] standing for entries in front of
    the queue that the handlers do not see *)

Lemma enqueue_consistent pre now c u sm :
  consistent (db c) (pre ++ pending_queue c) ->
  consistent (db (_enqueue_new_url now c u sm))
    (pre ++ pending_queue (_enqueue_new_url now c u sm)).
Proof.
  intros H. pose proof (consistent_insert now _ _ u sm H) as K.
  unfold _enqueue_new_url.
  destruct (DB.insert_or_ignore_url now (db c) u DB.pending sm) as [t [|]];
    simpl in *; [now rewrite app_assoc | exact K].
Qed.

Lemma attempt_consistent pre now c v resp :
  consistent (db c) (pre ++ pending_queue c) ->
  consistent (db (fst (attempt now c v resp)))
    (pre ++ pending_queue (fst (attempt now c v resp))).
Proof.
  apply (CrawlerFacts.attempt_invariant
           (fun c => consistent (db c) (pre ++ pending_queue c))); auto.
  intros c0 w sm. apply enqueue_consistent.
Qed.

(** *** The operations, one by one *)

Lemma pending_has_no_reason (r : DB.Row) :
  row_ok r -> DB.status r = DB.pending -> DB.pause_reason r = None.
Proof.
  intros (_ & [_ H] & _) Hst. destruct (DB.pause_reason r) eqn:E; [|reflexivity].
  assert (K : DB.status r = DB.paused) by (apply H; discriminate). congruence.
Qed.

Lemma row_ok_of_row (t : DB.Table) (q : list string) (u : string) (row : DB.Row) :
  consistent t q -> DB.get_url_row t u = Some row -> row_ok row.
Proof.
  intros (_ & _ & Hrows & _) H. apply DBFacts.get_url_row_In in H.
  rewrite Forall_forall in Hrows. now apply Hrows.
Qed.

Lemma update_keeps_known now t u st err sm reason clr inc v :
  DB.get_url_row t v <> None ->
  DB.get_url_row (DB.update_url_status now t u st err sm reason clr inc) v
  <> None.
Proof.
  intros H. unfold DB.update_url_status. rewrite get_url_row_map.
  - now destruct (DB.get_url_row t v).
  - intros r. now destruct (String.eqb (DB.url r) u).
Qed.

Lemma record_outcome_consistent now c u row o :
  consistent (db c) (u :: pending_queue c) ->
  DB.get_url_row (db c) u = Some row ->
  DB.status row = DB.pending ->
  consistent (db (record_outcome now c u (DB.retry_count row) o))
    (pending_queue (record_outcome now c u (DB.retry_count row) o)).
Proof.
  intros Hc Hrow Hst.
  pose proof (row_ok_of_row _ _ _ _ Hc Hrow) as Hok.
  pose proof (pending_has_no_reason _ Hok Hst) as Hnone.
  destruct Hok as (Hr & _ & _).
  pose proof Hc as (_ & _ & _ & _ & Hp).
  assert (Hothers : forall r, In r (db c) -> DB.url r <> u ->
            DB.status r = DB.pending -> In (DB.url r) (pending_queue c)).
  { intros r Hin Hne Hs. destruct (Hp r Hin Hs) as [E|H]; [congruence | exact H]. }
  unfold record_outcome. destruct o as [sm|msg].
  - simpl. apply (consistent_update _ _ _ _ _ row _ _ _ _ _ _ Hc Hrow); auto.
    + repeat split; simpl; try lia; try discriminate. now rewrite Hnone.
    + discriminate.
    + intros v Hv. right. now right.
  - destruct (DB.retry_count row + 1 <? MAX_RETRIES) eqn:E; simpl.
    + apply (consistent_update _ _ _ _ _ row _ _ _ _ _ _ Hc Hrow).
      * repeat split; simpl; try lia; try discriminate. now rewrite Hnone.
      * intros _. apply in_app_iff. right. now left.
      * intros v Hv. apply in_app_iff in Hv as [Hv|[<-|[]]]; [right; now right | now left].
      * intros r Hin Hne Hs. apply in_app_iff. left. now apply Hothers.
    + apply Z.ltb_ge in E.
      apply (consistent_update _ _ _ _ _ row _ _ _ _ _ _ Hc Hrow); auto.
      * repeat split; simpl; try lia; try discriminate. now rewrite Hnone.
      * discriminate.
      * intros v Hv. right. now right.
Qed.

Lemma process_consistent now c resp u :
  consistent (db c) (u :: pending_queue c) ->
  consistent (db (_process_url_with_db_check now c resp u))
    (pending_queue (_process_url_with_db_check now c resp u)).
Proof.
  intros Hc. unfold _process_url_with_db_check.
  destruct (DB.get_url_row (db c) u) as [row|] eqn:Hrow.
  - destruct (DB.status_eqb (DB.status row) DB.pending) eqn:Hst; simpl.
    + apply DBFacts.status_eqb_eq in Hst.
      pose proof (attempt_consistent [u] now c u resp Hc) as K.
      pose proof (CrawlerFacts.attempt_keeps_row now c u resp u row Hrow) as R.
      destruct (attempt now c u resp) as [c1 o]. simpl in K, R.
      now apply record_outcome_consistent.
    + apply (consistent_drop_head _ _ u Hc). intros r Hr.
      rewrite Hrow in Hr. injection Hr as <-.
      now apply DBFacts.status_eqb_neq.
  - apply (consistent_drop_head _ _ u Hc). intros r Hr. congruence.
Qed.

Lemma worker_consistent now c session_get :
  consistent (db c) (pending_queue c) ->
  consistent (db (_worker_loop now c session_get))
    (pending_queue (_worker_loop now c session_get)).
Proof.
  intros Hc. unfold _worker_loop.
  destruct (pending_queue c) as [|u q] eqn:Hq; [now rewrite Hq|].
  apply process_consistent. exact Hc.
Qed.

Lemma add_seed_url_consistent netloc now c u :
  consistent (db c) (pending_queue c) ->
  consistent (db (add_seed_url netloc now c u))
    (pending_queue (add_seed_url netloc now c u)).
Proof.
  intros Hc. unfold add_seed_url.
  destruct (String.eqb (_normalize_url u) ""); [exact Hc|].
  pose proof (consistent_insert now _ _ (_normalize_url u)
                (if _looks_like_sitemap (_normalize_url u) then 1 else 0) Hc) as K.
  destruct (DB.insert_or_ignore_url now (db c) (_normalize_url u) DB.pending _)
    as [t [|]]; simpl in K; [|exact K].
  destruct (no_main_domain _); [|exact K].
  destruct (host_of netloc (_normalize_url u)); exact K.
Qed.

Lemma pause_url_consistent now c u reason :
  consistent (db c) (pending_queue c) ->
  consistent (db (pause_url now c u reason))
    (pending_queue (pause_url now c u reason)).
Proof.
  intros Hc. unfold pause_url.
  destruct (DB.get_url_row (db c) (_normalize_url u)) as [row|] eqn:Hrow;
    [|exact Hc].
  simpl. pose proof (row_ok_of_row _ _ _ _ Hc Hrow) as (Hr & _ & _).
  pose proof Hc as (_ & _ & _ & _ & Hp).
  apply (consistent_update _ _ _ _ _ row _ _ _ _ _ _ Hc Hrow); auto.
  - repeat split; simpl; try lia; try discriminate.
  - discriminate.
Qed.

Lemma resume_url_consistent now c u :
  consistent (db c) (pending_queue c) ->
  consistent (db (resume_url now c u)) (pending_queue (resume_url now c u)).
Proof.
  intros Hc. unfold resume_url.
  destruct (DB.get_url_row (db c) (_normalize_url u)) as [row|] eqn:Hrow;
    [|exact Hc].
  destruct (negb (DB.status_eqb (DB.status row) DB.paused)); [exact Hc|].
  simpl. pose proof (row_ok_of_row _ _ _ _ Hc Hrow) as (Hr & _ & _).
  pose proof Hc as (_ & _ & _ & _ & Hp).
  apply (consistent_update _ _ _ _ _ row _ _ _ _ _ _ Hc Hrow).
  - repeat split; simpl; try lia; try discriminate; try congruence.
  - intros _. apply in_app_iff. right. now left.
  - intros v Hv. apply in_app_iff in Hv as [Hv|[<-|[]]]; auto.
  - intros r Hin _ Hs. apply in_app_iff. left. now apply Hp.
Qed.

Lemma pause_prefix_consistent now c prefix reason :
  consistent (db c) (pending_queue c) ->
  consistent (db (pause_prefix now c prefix reason))
    (pending_queue (pause_prefix now c prefix reason)).
Proof.
  intros Hc. pose proof Hc as (_ & _ & _ & Hq & Hp).
  unfold pause_prefix, DB.pause_prefix, _remove_from_pending_queue.
  cbn [with_db db pending_queue]. rewrite CrawlerFacts.remove_loop_spec.
  cbn [with_queue print db pending_queue app].
  apply (consistent_map _ _ (pending_queue c)); [| | | |exact Hc].
  - intros r. now destruct (DB.selected prefix DB.pending r).
  - intros r _ Hok. destruct (DB.selected prefix DB.pending r) eqn:E;
      [|exact Hok].
    destruct Hok as (Hr & _ & _).
    repeat split; simpl; try lia; try discriminate.
  - intros v Hv. apply filter_In in Hv as [Hv _]. now apply Hq.
  - intros r Hin. destruct (DB.selected prefix DB.pending r) eqn:E;
      [discriminate|].
    intros Hst. apply filter_In. split; [now apply Hp|].
    destruct (Str.startswith (DB.url r) prefix) eqn:S; [|reflexivity].
    rewrite (PrefixFacts.literal_prefix_selected prefix r Hst S) in E.
    discriminate.
Qed.

Lemma resumed_rows_consistent (sel : DB.Row -> bool) now (t : DB.Table)
    (q : list string) :
  (forall r, sel r = true -> DB.status r = DB.paused) ->
  consistent t q ->
  consistent (map (fun r => if sel r then DB.set_pending now r else r) t)
    (q ++ map DB.url (filter sel t)).
Proof.
  intros Hsel Hc. pose proof Hc as (_ & _ & _ & Hq & Hp).
  apply (consistent_map _ _ q); [| | | |exact Hc].
  - intros r. now destruct (sel r).
  - intros r _ Hok. destruct (sel r); [|exact Hok].
    destruct Hok as (Hr & _ & _).
    repeat split; simpl; try lia; try discriminate; try congruence.
  - intros v Hv. apply in_app_iff in Hv as [Hv|Hv]; [now apply Hq|].
    apply in_map_iff in Hv as (r & <- & Hin). apply filter_In in Hin as [Hin _].
    now apply known_of_In.
  - intros r Hin Hst. apply in_app_iff. destruct (sel r) eqn:E.
    + right. apply in_map. now apply filter_In.
    + left. now apply Hp.
Qed.

Lemma resume_prefix_consistent now c prefix :
  consistent (db c) (pending_queue c) ->
  consistent (db (resume_prefix now c prefix))
    (pending_queue (resume_prefix now c prefix)).
Proof.
  intros Hc. unfold resume_prefix, DB.resume_prefix.
  rewrite PrefixFacts.fold_put. cbn [with_db print db pending_queue].
  apply resumed_rows_consistent; [|exact Hc].
  intros r H. unfold DB.selected in H. apply andb_true_iff in H as [_ H].
  now apply DBFacts.status_eqb_eq.
Qed.

Lemma resume_all_paused_consistent now c :
  consistent (db c) (pending_queue c) ->
  consistent (db (fst (resume_all_paused now c)))
    (pending_queue (fst (resume_all_paused now c))).
Proof.
  intros Hc. unfold resume_all_paused, DB.resume_all_paused.
  rewrite PrefixFacts.fold_put.
  assert (K : consistent
                (map (fun r => if DB.status_eqb (DB.status r) DB.paused
                               then DB.set_pending now r else r) (db c))
                (pending_queue c
                 ++ map DB.url
                      (filter (fun r => DB.status_eqb (DB.status r) DB.paused)
                         (db c)))).
  { apply resumed_rows_consistent; [|exact Hc].
    intros r H. now apply DBFacts.status_eqb_eq. }
  destruct (map DB.url (filter _ (db c))); exact K.
Qed.

Lemma fold_left_invariant_in {A B : Type} (P : A -> Prop) (f : A -> B -> A)
    (l : list B) (a : A) :
  (forall a b, In b l -> P a -> P (f a b)) -> P a -> P (fold_left f l a).
Proof.
  revert a. induction l as [|b l IH]; intros a Hf Ha; simpl; [exact Ha|].
  apply IH.
  - intros a' b' Hb. apply Hf. now right.
  - apply Hf; [now left | exact Ha].
Qed.

Lemma resume_paused_for_domain_consistent netloc now c domain :
  consistent (db c) (pending_queue c) ->
  consistent (db (fst (fst (resume_paused_for_domain netloc now c domain))))
    (pending_queue (fst (fst (resume_paused_for_domain netloc now c domain)))).
Proof.
  intros Hc. unfold resume_paused_for_domain.
  assert (K : (fun acc : State * Z =>
                 consistent (db (fst acc)) (pending_queue (fst acc)) /\
                 forall v, DB.get_url_row (db c) v <> None ->
                           DB.get_url_row (db (fst acc)) v <> None)
              (fold_left (resume_if_host_matches netloc now domain)
                 (DB.list_paused_urls (db c)) (c, 0))).
  { apply fold_left_invariant_in; [|split; [exact Hc | auto]].
    intros [a n] u Hu [Ha Hk]. simpl in Ha, Hk.
    unfold resume_if_host_matches.
    destruct (host_of netloc u); [|split; assumption].
    destruct (host_matches _ domain); [|split; assumption].
    simpl. split.
    - assert (Hknown : DB.get_url_row (db a) u <> None).
      { apply Hk. unfold DB.list_paused_urls in Hu.
        apply in_map_iff in Hu as (r & <- & Hin).
        apply filter_In in Hin as [Hin _]. now apply known_of_In. }
      destruct (DB.get_url_row (db a) u) as [row|] eqn:Hrow; [|congruence].
      pose proof (row_ok_of_row _ _ _ _ Ha Hrow) as (Hr & _ & _).
      pose proof Ha as (_ & _ & _ & _ & Hp).
      apply (consistent_update _ _ _ _ _ row _ _ _ _ _ _ Ha Hrow).
      + repeat split; simpl; try lia; try discriminate; try congruence.
      + intros _. apply in_app_iff. right. now left.
      + intros v Hv. apply in_app_iff in Hv as [Hv|[<-|[]]]; auto.
      + intros r Hin _ Hs. apply in_app_iff. left. now apply Hp.
    - intros v Hv. apply update_keeps_known. now apply Hk. }
  destruct (fold_left _ (DB.list_paused_urls (db c)) (c, 0)) as [c' n].
  simpl in *. exact (proj1 K).
Qed.

Lemma fold_snoc {A : Type} (l q : list A) :
  fold_left (fun q u => q ++ [u]) l q = q ++ l.
Proof.
  revert q. induction l as [|a l IH]; intros q; simpl.
  - now rewrite app_nil_r.
  - now rewrite IH, <- app_assoc.
Qed.

(** The queue that [__init__] rebuilds is the list of the pending URLs. *)
Lemma init_queue netloc (t : DB.Table) (sink : list JsonRecord) :
  pending_queue (init netloc t sink) = DB.load_pending_urls t.
Proof. unfold init. cbn [pending_queue]. now rewrite fold_snoc. Qed.

Lemma init_consistent netloc (t : DB.Table) (q : list string)
    (sink : list JsonRecord) :
  consistent t q ->
  consistent (db (init netloc t sink)) (pending_queue (init netloc t sink)).
Proof.
  intros (Hnd & Hs & Hrows & _ & _). rewrite init_queue. cbn [init db].
  repeat split; try assumption.
  - intros u Hu. unfold DB.load_pending_urls in Hu.
    apply in_map_iff in Hu as (r & <- & Hin).
    apply filter_In in Hin as [Hin _]. now apply known_of_In.
  - intros r Hin Hst. unfold DB.load_pending_urls. apply in_map.
    apply filter_In. split; [exact Hin|]. rewrite Hst. reflexivity.
Qed.

(** Every operation keeps the table and the queue consistent. *)
Lemma step_consistent netloc (c c' : State) :
  Step netloc c c' ->
  consistent (db c) (pending_queue c) ->
  consistent (db c') (pending_queue c').
Proof.
  intros [now c0 u|now c0 u reason|now c0 prefix reason|now c0 u|now c0 prefix
          |now c0|now c0 domain|now c0 session_get|c0] Hc.
  - now apply add_seed_url_consistent.
  - now apply pause_url_consistent.
  - now apply pause_prefix_consistent.
  - now apply resume_url_consistent.
  - now apply resume_prefix_consistent.
  - now apply resume_all_paused_consistent.
  - now apply resume_paused_for_domain_consistent.
  - now apply worker_consistent.
  - now apply (init_consistent netloc _ (pending_queue c0)).
Qed.

Lemma reachable_consistent netloc (c : State) :
  Reachable netloc c -> consistent (db c) (pending_queue c).
Proof.
  induction 1 as [|c c' _ IH Hstep].
  - cbn. repeat split; try constructor; simpl; tauto.
  - now apply (step_consistent netloc c c').
Qed.

End InvariantFacts.

(* ================================================================== *)
(** ** What holds in every state the crawler reaches *)
(* ================================================================== *)

(** The states are those reached from an empty database by operator
    commands, worker turns and restarts, each run to its end before the
    next one starts. *)

Module ReachableFacts.
Import Crawler.

(** X1. URLs stay distinct: in every reachable state no two rows carry
    the same URL, so the point lookup of a row's URL returns that row. *)
Theorem reachable_urls_distinct (netloc : string -> option string) (c : State) :
  Reachable netloc c ->
  NoDup (map DB.url (db c)) /\
  forall r, In r (db c) -> DB.get_url_row (db c) (DB.url r) = Some r.
Proof.
  intros H. apply InvariantFacts.reachable_consistent in H.
  destruct H as (Hnd & _). split; [exact Hnd|].
  intros r Hin. now apply InvariantFacts.unique_row.
Qed.

(** X2. In every reachable state a row has a [pause_reason] exactly when
    its status is paused. *)
Theorem reachable_pause_reason_iff_paused
    (netloc : string -> option string) (c : State) :
  Reachable netloc c ->
  forall r, In r (db c) ->
            (DB.status r = DB.paused <-> DB.pause_reason r <> None).
Proof.
  intros H r Hin. apply InvariantFacts.reachable_consistent in H.
  destruct H as (_ & _ & Hrows & _). rewrite Forall_forall in Hrows.
  now destruct (Hrows r Hin) as (_ & K & _).
Qed.

(** X3. In every reachable state [retry_count] is not negative, and a
    row in the error state has [retry_count >= MAX_RETRIES]. *)
Theorem reachable_error_has_used_retries
    (netloc : string -> option string) (c : State) :
  Reachable netloc c ->
  forall r, In r (db c) ->
            0 <= DB.retry_count r /\
            (DB.status r = DB.error -> MAX_RETRIES <= DB.retry_count r).
Proof.
  intros H r Hin. apply InvariantFacts.reachable_consistent in H.
  destruct H as (_ & _ & Hrows & _). rewrite Forall_forall in Hrows.
  destruct (Hrows r Hin) as (K1 & _ & K2). now split.
Qed.


(** X5. The queue never holds a URL the store does not know. *)
Theorem reachable_queue_is_known
    (netloc : string -> option string) (c : State) :
  Reachable netloc c ->
  forall u, In u (pending_queue c) ->
            exists r, DB.get_url_row (db c) u = Some r.
Proof.
  intros H u Hu. apply InvariantFacts.reachable_consistent in H.
  destruct H as (_ & _ & _ & Hq & _). specialize (Hq u Hu).
  destruct (DB.get_url_row (db c) u) as [r|]; [now exists r | congruence].
Qed.

(** X6. Keys grow with the order of insertion, so the URL that
    [get_earliest_url] returns is that of the row with the least [id]. *)
Theorem reachable_earliest_has_least_id
    (netloc : string -> option string) (c : State) (first : string) :
  Reachable netloc c ->
  DB.get_earliest_url (db c) = Some first ->
  exists r0, In r0 (db c) /\ DB.url r0 = first /\
             forall r, In r (db c) -> DB.id r0 <= DB.id r.
Proof.
  intros H Hfirst. apply InvariantFacts.reachable_consistent in H.
  destruct H as (_ & Hs & _).
  destruct (db c) as [|r0 t]; [discriminate|].
  injection Hfirst as <-. exists r0. split; [now left|]. split; [reflexivity|].
  inversion Hs as [|? ? _ Hall]; subst. rewrite Forall_forall in Hall.
  intros r [<-|Hin]; [lia|]. specialize (Hall r Hin). simpl in Hall. lia.
Qed.

Lemma sample_reachable : Reachable sample_netloc sample_state.
Proof.
  unfold sample_state.
  eapply reachable_step; [|apply step_worker].
  eapply reachable_step; [|apply step_pause_prefix].
  eapply reachable_step; [|apply step_add_seed_url].
  eapply reachable_step; [|apply step_add_seed_url].
  apply reachable_init.
Defined.

(** The sample run ends with [/a] paused and [/b] pending after one
    failure, back in the queue. *)
Example sample_state_run :
  map (fun r => (DB.url r, DB.status r, DB.retry_count r, DB.pause_reason r))
    (db sample_state)
  = [("https://example.com/a", DB.paused, 0, Some "user-pause-prefix");
     ("https://example.com/b", DB.pending, 1, None)] /\
  pending_queue sample_state = ["https://example.com/b"].
Proof. split; reflexivity. Qed.

(** X1 on the sample run. *)
Lemma reachable_urls_distinct_witness :
  NoDup (map DB.url (db sample_state)) /\
  forall r, In r (db sample_state) ->
            DB.get_url_row (db sample_state) (DB.url r) = Some r.
Proof.
  apply (reachable_urls_distinct sample_netloc sample_state).
  exact sample_reachable.
Defined.

(** X2 on the paused record of the sample run. *)
Lemma reachable_pause_reason_iff_paused_witness :
  let r := DB.mkRow 1 "https://example.com/a" DB.paused (Some "t2") None 0 0
             (Some "user-pause-prefix") in
  DB.status r = DB.paused <-> DB.pause_reason r <> None.
Proof.
  intros r.
  apply (reachable_pause_reason_iff_paused sample_netloc sample_state
           sample_reachable r).
  left. reflexivity.
Defined.

Lemma sample_failed_reachable : Reachable sample_netloc sample_failed_state.
Proof.
  unfold sample_failed_state.
  eapply reachable_step; [|apply step_worker].
  eapply reachable_step; [|apply step_worker].
  eapply reachable_step; [|apply step_worker].
  eapply reachable_step; [|apply step_add_seed_url].
  apply reachable_init.
Defined.

(** The run of three failed fetches ends with the record in the error
    state, three retries counted, and an empty queue. *)
Example sample_failed_state_run :
  db sample_failed_state
  = [DB.mkRow 1 "https://example.com/a" DB.error (Some "t3")
       (Some "timed out") 3 0 None] /\
  pending_queue sample_failed_state = [].
Proof. split; reflexivity. Qed.

(** X3 on the record that the run of three failed fetches has left in
    the error state. *)
Lemma reachable_error_has_used_retries_witness :
  let r := DB.mkRow 1 "https://example.com/a" DB.error (Some "t3")
             (Some "timed out") 3 0 None in
  0 <= DB.retry_count r /\
  (DB.status r = DB.error -> MAX_RETRIES <= DB.retry_count r).
Proof.
  intros r.
  apply (reachable_error_has_used_retries sample_netloc sample_failed_state
           sample_failed_reachable r).
  left. reflexivity.
Defined.


(** X5 on the queue entry of the sample run. *)
Lemma reachable_queue_is_known_witness :
  exists r, DB.get_url_row (db sample_state) "https://example.com/b" = Some r.
Proof.
  apply (reachable_queue_is_known sample_netloc sample_state sample_reachable
           "https://example.com/b").
  left. reflexivity.
Defined.

(** X6 on the sample run. *)
Lemma reachable_earliest_has_least_id_witness :
  exists r0, In r0 (db sample_state) /\ DB.url r0 = "https://example.com/a" /\
             forall r, In r (db sample_state) -> DB.id r0 <= DB.id r.
Proof.
  apply (reachable_earliest_has_least_id sample_netloc sample_state
           "https://example.com/a").
  - exact sample_reachable.
  - reflexivity.
Defined.

End ReachableFacts.

(* ================================================================== *)
(** ** Records are never lost *)
(* ================================================================== *)

Module GrowthFacts.
Import Crawler.

Lemma grows_refl (t : DB.Table) : DB.grows t t.
Proof. intros u r H. exists r. repeat split; [exact H | lia]. Qed.

Lemma grows_trans (t1 t2 t3 : DB.Table) :
  DB.grows t1 t2 -> DB.grows t2 t3 -> DB.grows t1 t3.
Proof.
  intros H12 H23 u r H. destruct (H12 u r H) as (r2 & H2 & Hid2 & Hr2).
  destruct (H23 u r2 H2) as (r3 & H3 & Hid3 & Hr3).
  exists r3. repeat split; [exact H3 | congruence | lia].
Qed.

Lemma grows_map (f : DB.Row -> DB.Row) (t : DB.Table) :
  (forall r, DB.url (f r) = DB.url r /\ DB.id (f r) = DB.id r /\
             DB.retry_count r <= DB.retry_count (f r)) ->
  DB.grows t (map f t).
Proof.
  intros Hf u r H. exists (f r). rewrite InvariantFacts.get_url_row_map, H.
  - destruct (Hf r) as (_ & Hid & Hr). now repeat split.
  - intros x. apply Hf.
Qed.

Lemma grows_update now t u st err sm reason clr inc :
  DB.grows t (DB.update_url_status now t u st err sm reason clr inc).
Proof.
  unfold DB.update_url_status. apply grows_map. intros r.
  destruct (String.eqb (DB.url r) u); simpl; repeat split; try lia.
  destruct inc; lia.
Qed.

Lemma grows_insert now t u st sm :
  DB.grows t (fst (DB.insert_or_ignore_url now t u st sm)).
Proof.
  intros v r H. exists r. repeat split; [|lia].
  now apply DBFacts.insert_keeps_row.
Qed.

Lemma enqueue_grows now c u sm :
  DB.grows (db c) (db (_enqueue_new_url now c u sm)).
Proof.
  pose proof (grows_insert now (db c) u DB.pending sm) as K.
  unfold _enqueue_new_url.
  destruct (DB.insert_or_ignore_url now (db c) u DB.pending sm) as [t [|]];
    exact K.
Qed.

Lemma attempt_grows now c v resp :
  DB.grows (db c) (db (fst (attempt now c v resp))).
Proof.
  intros u r H. exists r. repeat split; [|lia].
  now apply (CrawlerFacts.attempt_keeps_row now c v resp u r).
Qed.

Lemma process_grows now c resp u :
  DB.grows (db c) (db (_process_url_with_db_check now c resp u)).
Proof.
  unfold _process_url_with_db_check.
  destruct (DB.get_url_row (db c) u) as [row|]; [|apply grows_refl].
  destruct (DB.status_eqb (DB.status row) DB.pending); simpl;
    [|apply grows_refl].
  pose proof (attempt_grows now c u resp) as K.
  destruct (attempt now c u resp) as [c1 o]. simpl in K.
  apply (grows_trans _ _ _ K). unfold record_outcome.
  destruct o as [sm|msg]; [apply grows_update|].
  destruct (_ <? _); apply grows_update.
Qed.

Lemma resume_for_domain_grows netloc now c domain :
  DB.grows (db c) (db (fst (fst (resume_paused_for_domain netloc now c domain)))).
Proof.
  unfold resume_paused_for_domain.
  assert (K : (fun acc : State * Z => DB.grows (db c) (db (fst acc)))
              (fold_left (resume_if_host_matches netloc now domain)
                 (DB.list_paused_urls (db c)) (c, 0))).
  { apply CrawlerFacts.fold_left_invariant; [|apply grows_refl].
    intros [a n] u Ha. simpl in Ha. unfold resume_if_host_matches.
    destruct (host_of netloc u); [|exact Ha].
    destruct (host_matches _ domain); [|exact Ha].
    simpl. apply (grows_trans _ _ _ Ha), grows_update. }
  destruct (fold_left _ (DB.list_paused_urls (db c)) (c, 0)) as [c' n].
  exact K.
Qed.

(** X7. No operation deletes or renumbers a record or lowers its retry
    count: a URL that is known before an operation is known after it,
    under the same [id] and with a [retry_count] at least as large. *)
Theorem step_keeps_records
    (netloc : string -> option string) (c c' : State) (u : string)
    (r : DB.Row) :
  Step netloc c c' ->
  DB.get_url_row (db c) u = Some r ->
  exists r', DB.get_url_row (db c') u = Some r' /\
             DB.id r' = DB.id r /\ DB.url r' = DB.url r /\
             DB.retry_count r <= DB.retry_count r'.
Proof.
  intros Hstep Hrow.
  assert (G : DB.grows (db c) (db c')).
  { destruct Hstep as [now c0 v|now c0 v reason|now c0 prefix reason|now c0 v
                       |now c0 prefix|now c0|now c0 domain|now c0 session_get
                       |c0].
    - unfold add_seed_url.
      destruct (String.eqb (_normalize_url v) ""); [apply grows_refl|].
      pose proof (grows_insert now (db c0) (_normalize_url v) DB.pending
                    (if _looks_like_sitemap (_normalize_url v) then 1 else 0))
        as K.
      destruct (DB.insert_or_ignore_url now (db c0) (_normalize_url v) _ _)
        as [t [|]]; simpl in K; [|exact K].
      destruct (no_main_domain _); [|exact K].
      destruct (host_of netloc (_normalize_url v)); exact K.
    - unfold pause_url.
      destruct (DB.get_url_row (db c0) (_normalize_url v));
        [apply grows_update | apply grows_refl].
    - unfold pause_prefix, DB.pause_prefix, _remove_from_pending_queue.
      cbn [with_db db pending_queue]. destruct (remove_loop _ _ _ _).
      cbn [print db with_queue]. apply grows_map. intros x.
      destruct (DB.selected prefix DB.pending x); simpl; repeat split; lia.
    - unfold resume_url.
      destruct (DB.get_url_row (db c0) (_normalize_url v)); [|apply grows_refl].
      destruct (negb _); [apply grows_refl | apply grows_update].
    - unfold resume_prefix, DB.resume_prefix. rewrite PrefixFacts.fold_put.
      cbn [print db with_db]. apply grows_map. intros x.
      destruct (DB.selected prefix DB.paused x); simpl; repeat split; lia.
    - unfold resume_all_paused, DB.resume_all_paused.
      rewrite PrefixFacts.fold_put.
      assert (K : DB.grows (db c0)
                    (map (fun r => if DB.status_eqb (DB.status r) DB.paused
                                   then DB.set_pending now r else r) (db c0))).
      { apply grows_map. intros x.
        destruct (DB.status_eqb (DB.status x) DB.paused); simpl;
          repeat split; lia. }
      destruct (map DB.url _); exact K.
    - apply resume_for_domain_grows.
    - unfold _worker_loop. destruct (pending_queue c0) as [|v q];
        [apply grows_refl|].
      apply (process_grows now (with_queue c0 q)).
    - apply grows_refl. }
  destruct (G u r Hrow) as (r' & H' & Hid & Hr).
  exists r'. repeat split; try assumption.
  rewrite (DBFacts.get_url_row_url _ _ _ H').
  now rewrite (DBFacts.get_url_row_url _ _ _ Hrow).
Qed.

(** X7 on a worker turn that fails on a record at its first attempt. *)
Lemma step_keeps_records_witness :
  let row := DB.mkRow 1 "https://example.com/" DB.pending (Some "t0") None 0 0
               None in
  let c := mkState [row] ["https://example.com/"] None [] [] in
  let c' := _worker_loop "t1" c (fun _ => Raised "timed out") in
  exists r', DB.get_url_row (db c') "https://example.com/" = Some r' /\
             DB.id r' = DB.id row /\ DB.url r' = DB.url row /\
             DB.retry_count row <= DB.retry_count r'.
Proof.
  intros row c c'.
  apply (step_keeps_records (fun _ => None) c c' "https://example.com/" row).
  - apply step_worker.
  - reflexivity.
Defined.

End GrowthFacts.

(* ================================================================== *)
(** ** Registration of discovered links *)
(* ================================================================== *)

Module LinkFacts.
Import Crawler.

Lemma registers_nothing P Q (c : State) : registers P Q c c [].
Proof.
  split; [|split; [|split; [|split]]].
  - now rewrite app_nil_r.
  - constructor.
  - intros v [].
  - auto.
  - auto.
Qed.

(** One more [_enqueue_new_url] after a run of registrations. *)
Lemma registers_enqueue (P : string -> Prop) (Q : DB.Row -> Prop) now
    (c c1 : State) (added : list string) (u : string) (sm : Z) :
  P u ->
  (forall r, DB.is_sitemap r = sm -> DB.pause_reason r = None -> Q r) ->
  registers P Q c c1 added ->
  exists added', registers P Q c (_enqueue_new_url now c1 u sm) added'.
Proof.
  intros HP HQ (Hq & Hnd & Hadd & Hold & Hnew).
  unfold _enqueue_new_url, DB.insert_or_ignore_url.
  destruct (existsb _ (db c1)) eqn:E.
  - exists added. unfold registers. cbn [with_db db pending_queue].
    split; [|split; [|split; [|split]]]; assumption.
  - apply DBFacts.known_iff_row in E.
    assert (Hc : DB.get_url_row (db c) u = None).
    { destruct (DB.get_url_row (db c) u) as [r|] eqn:K; [|reflexivity].
      rewrite (Hold _ _ K) in E. discriminate. }
    assert (Hu : ~ In u added).
    { intros Hin. destruct (Hadd u Hin) as (_ & _ & r & Hr & _). congruence. }
    exists (added ++ [u]). unfold registers.
    cbn [put with_db db pending_queue].
    split; [|split; [|split; [|split]]].
    + now rewrite Hq, app_assoc.
    + apply NoDup_app; [exact Hnd | repeat constructor; simpl; tauto|].
      intros v Hv [<-|[]]. contradiction.
    + intros v H. apply in_app_iff in H as [H|[<-|[]]].
      * destruct (Hadd v H) as (HPv & Hcv & r & Hr & Hrest).
        split; [exact HPv|]. split; [exact Hcv|].
        exists r. split; [|exact Hrest].
        rewrite DBFacts.get_url_row_app. now rewrite Hr.
      * split; [exact HP|]. split; [exact Hc|].
        eexists. split.
        { rewrite DBFacts.get_url_row_app, E. unfold DB.get_url_row. simpl.
          now rewrite String.eqb_refl. }
        simpl. repeat split. now apply HQ.
    + intros v r K. rewrite DBFacts.get_url_row_app. now rewrite (Hold _ _ K).
    + intros v K Hv. rewrite DBFacts.get_url_row_app.
      rewrite Hnew; [|exact K|intros Hin; apply Hv, in_app_iff; now left].
      unfold DB.get_url_row. simpl.
      destruct (String.eqb u v) eqn:Euv; [|reflexivity].
      apply String.eqb_eq in Euv. subst v. exfalso. apply Hv, in_app_iff.
      right. now left.
Qed.

Lemma registers_weaken (P P' : string -> Prop) (Q Q' : DB.Row -> Prop)
    (c c' : State) (added : list string) :
  (forall v, P v -> P' v) -> (forall r, Q r -> Q' r) ->
  registers P Q c c' added -> registers P' Q' c c' added.
Proof.
  intros HP HQ (Hq & Hnd & Hadd & Hold & Hnew).
  split; [|split; [|split; [|split]]]; try assumption.
  intros v Hv. destruct (Hadd v Hv) as (H1 & H2 & r & H3 & H4 & H5 & H6 & H7).
  split; [now apply HP|]. split; [exact H2|].
  exists r. repeat split; try assumption. now apply HQ.
Qed.

Lemma registers_from (P : string -> Prop) (Q : DB.Row -> Prop)
    (c0 c c' : State) (added : list string) :
  db c0 = db c -> pending_queue c0 = pending_queue c ->
  registers P Q c0 c' added -> registers P Q c c' added.
Proof. unfold registers. intros -> ->. tauto. Qed.

Lemma registers_to (P : string -> Prop) (Q : DB.Row -> Prop)
    (c c1 c' : State) (added : list string) :
  db c1 = db c' -> pending_queue c1 = pending_queue c' ->
  registers P Q c c1 added -> registers P Q c c' added.
Proof. unfold registers. intros -> ->. tauto. Qed.


(** A run of registrations registers the URLs of the list that were not
    known, each once, in the order in which they first come up. *)
Lemma enqueue_all_registers (P : string -> Prop) now sm c l :
  (forall v, In v l -> P v) ->
  registers P (fun r => DB.is_sitemap r = sm) c (enqueue_all now sm c l)
    (fresh (map DB.url (db c)) l).
Proof.
  intros HP.
  assert (K : exists added,
            registers (fun v => In v l) (fun r => DB.is_sitemap r = sm) c
              (enqueue_all now sm c l) added).
  { unfold enqueue_all.
    apply (InvariantFacts.fold_left_invariant_in
             (fun a => exists added,
                registers (fun v => In v l) (fun r => DB.is_sitemap r = sm)
                  c a added)).
    - intros a v Hin [added Ha].
      apply (registers_enqueue _ _ now c a added); auto.
    - exists []. apply registers_nothing. }
  destruct K as [added K].
  assert (E : added = fresh (map DB.url (db c)) l).
  { destruct K as [Hq _].
    destruct (CrawlerFacts.enqueue_all_run now sm c l) as [Hq' _].
    rewrite Hq' in Hq. now apply app_inv_head in Hq. }
  subst added. revert K. apply registers_weaken; auto.
Qed.

Lemma fresh_of_unknown (c : State) (l : list string) (v : string) :
  In v l -> DB.get_url_row (db c) v = None ->
  In v (fresh (map DB.url (db c)) l).
Proof.
  intros Hin Hnew.
  destruct (CrawlerFacts.fresh_complete (map DB.url (db c)) l v Hin) as [K|K];
    [|exact K].
  apply CrawlerFacts.unknown_iff in Hnew. congruence.
Qed.

(** X8. The HTML path registers the links of the page whose normalized
    URL starts with [http://] or [https://] and is not yet known, all of
    them and each once, up to the first anchor that [urljoin] or
    [urldefrag] rejects; there it raises, with what it has registered
    left in place. The URLs pushed are those of [http_links] the store
    did not know, in document order without repetition; each now has a
    fresh pending row that is not marked as a sitemap; every row that
    was in the store is unchanged and no other URL has become known. *)
Theorem handle_html_registers_new_http_links
    (now : string) (c : State) (base_url : string) (html : HtmlDoc) :
  let result := _handle_html_content now c base_url html in
  let added := fresh (map DB.url (db c)) (http_links html) in
  snd result = first_unresolvable (hrefs html) /\
  registers
    (fun v => has_http_scheme v = true /\
              exists href, In href (resolved_hrefs (hrefs html)) /\
                           _normalize_url href = v)
    (fun r => DB.is_sitemap r = 0)
    c (fst result) added /\
  (forall v, In v (http_links html) -> DB.get_url_row (db c) v = None ->
             In v added).
Proof.
  intros result added. unfold result, added.
  rewrite CrawlerFacts.handle_html_run. cbn [fst snd].
  split; [reflexivity|]. split; [|intros v; apply fresh_of_unknown].
  apply (registers_from _ _ (print c (Content base_url (soup_text html))));
    [reflexivity | reflexivity |].
  apply (enqueue_all_registers _ now 0
           (print c (Content base_url (soup_text html)))).
  unfold http_links. intros v Hv. apply filter_In in Hv as [Hv E].
  apply in_map_iff in Hv as (href & Hn & Hin).
  split; [exact E|]. now exists href.
Qed.

(** X9. On a root that parses, the sitemap path registers the [loc]
    entries that go with the root tag and returns: for a sitemap index
    those of the [sitemap] children, marked as sitemaps, for a urlset
    those of the [url] children, not marked, for any other root none.
    The URLs pushed are the trimmed texts of those entries that the store
    did not know, all of them, in document order without repetition;
    each now has a fresh pending row; rows already in the store are
    unchanged and no other URL has become known. *)
Theorem handle_sitemap_registers_locs
    (now : string) (c : State) (u : string) (root : XmlRoot) :
  let index := Str.endswith (Str.lower (tag root)) "sitemapindex" in
  let urlset := Str.endswith (Str.lower (tag root)) "urlset" in
  let locs := if index then sitemap_locs root
              else if urlset then url_locs root else [] in
  let result := _handle_sitemap_content now c u (XmlOk root) in
  let added := fresh (map DB.url (db c)) (loc_urls locs) in
  snd result = None /\
  registers
    (fun v => exists loc, In loc locs /\ loc_url loc = Some v)
    (fun r => DB.is_sitemap r = if index then 1 else 0)
    c (fst result) added /\
  (forall v, In v (loc_urls locs) -> DB.get_url_row (db c) v = None ->
             In v added).
Proof.
  intros index urlset locs result added. unfold result, added.
  rewrite CrawlerFacts.handle_sitemap_run. fold index urlset. cbn [fst snd].
  split; [reflexivity|]. split; [|intros v; apply fresh_of_unknown].
  assert (HP : forall v, In v (loc_urls locs) ->
                         exists loc, In loc locs /\ loc_url loc = Some v).
  { intros v Hv. unfold loc_urls in Hv. apply in_flat_map in Hv as (loc & Hin & Hv).
    exists loc. split; [exact Hin|].
    destruct (loc_url loc) as [w|]; [|destruct Hv].
    destruct Hv as [->|[]]. reflexivity. }
  unfold locs in *. destruct index.
  - apply (registers_to _ _ c (enqueue_all now 1 c (loc_urls (sitemap_locs root))));
      [reflexivity | reflexivity |].
    now apply enqueue_all_registers.
  - destruct urlset.
    + apply (registers_to _ _ c (enqueue_all now 0 c (loc_urls (url_locs root))));
        [reflexivity | reflexivity |].
      now apply enqueue_all_registers.
    + apply (registers_to _ _ c c); [reflexivity | reflexivity |].
      apply registers_nothing.
Qed.

(** A sitemap index that lists one sitemap twice and one the store
    knows already: the new one is registered once. *)
Lemma handle_sitemap_index_run :
  let row := DB.mkRow 1 "https://example.com/s1.xml" DB.visited (Some "t0")
               None 0 1 None in
  let c := mkState [row] [] None [] [] in
  let root := mkXml "sitemapindex"
                [Some "https://example.com/s2.xml";
                 Some "https://example.com/s1.xml"; None;
                 Some " https://example.com/s2.xml "] [] in
  let result := _handle_sitemap_content "t1" c "https://example.com/sitemap.xml"
                  (XmlOk root) in
  fresh (map DB.url (db c)) (loc_urls (sitemap_locs root))
  = ["https://example.com/s2.xml"] /\
  pending_queue (fst result) = ["https://example.com/s2.xml"] /\
  db (fst result)
  = [row; DB.mkRow 2 "https://example.com/s2.xml" DB.pending (Some "t1")
            None 0 1 None].
Proof. repeat split. Qed.

(** A page with a link, a [mailto:], the same link again and an anchor
    that cannot be resolved: one URL is registered, and the handler
    raises. *)
Lemma handle_html_run_sample :
  let c := mkState [] [] None [] [] in
  let page := mkHtml None ""
                [Resolved "https://example.com/a";
                 Resolved "mailto:someone@example.com";
                 Resolved "https://example.com/a";
                 Unresolvable "Invalid IPv6 URL";
                 Resolved "https://example.com/b"] in
  let result := _handle_html_content "t1" c "https://example.com/" page in
  snd result = Some "Invalid IPv6 URL" /\
  fresh (map DB.url (db c)) (http_links page) = ["https://example.com/a"] /\
  pending_queue (fst result) = ["https://example.com/a"] /\
  db (fst result)
  = [DB.mkRow 1 "https://example.com/a" DB.pending (Some "t1") None 0 0 None].
Proof. repeat split. Qed.

End LinkFacts.

(* ================================================================== *)
(** ** Turns of the worker *)
(* ================================================================== *)

Module WorkerFacts.
Import Crawler.

(** [failure_of] is how the [try] block fails. *)
Lemma attempt_fails now c u resp msg :
  failure_of resp = Some msg -> attempt now c u resp = (c, Failure msg).
Proof.
  destruct resp as [m|code ct xml html]; simpl.
  - now intros [= ->].
  - destruct (negb (code =? 200)); [now intros [= ->] | discriminate].
Qed.

(** A turn on a pending record whose fetch fails. *)
Lemma failing_turn now c u q row session_get msg :
  pending_queue c = u :: q ->
  DB.get_url_row (db c) u = Some row ->
  DB.status row = DB.pending ->
  failure_of (session_get u) = Some msg ->
  _worker_loop now c session_get
  = record_outcome now (with_queue c q) u (DB.retry_count row) (Failure msg).
Proof.
  intros Hq Hrow Hst Hfail. unfold _worker_loop. rewrite Hq.
  unfold _process_url_with_db_check. cbn [with_queue db].
  rewrite Hrow, Hst. cbn [DB.status_eqb negb].
  now rewrite (attempt_fails _ _ _ _ _ Hfail).
Qed.

(** X10. The worker does not fetch what is not pending: when the URL at
    the head of the queue is unknown to the store or its record is
    paused, visited or in the error state, the turn only takes the entry
    off the queue, whatever the network would have answered. *)
Theorem worker_discards_non_pending
    (now : string) (c : State) (session_get : string -> Fetch) (u : string)
    (q : list string) :
  pending_queue c = u :: q ->
  (forall r, DB.get_url_row (db c) u = Some r -> DB.status r <> DB.pending) ->
  _worker_loop now c session_get = with_queue c q.
Proof.
  intros Hq Hnp. unfold _worker_loop. rewrite Hq.
  unfold _process_url_with_db_check. cbn [with_queue db].
  destruct (DB.get_url_row (db c) u) as [row|]; [|reflexivity].
  specialize (Hnp row eq_refl). apply DBFacts.status_eqb_neq in Hnp.
  now rewrite Hnp.
Qed.

(** X10 on a queue entry whose record has been visited. *)
Lemma worker_discards_non_pending_witness :
  let row := DB.mkRow 1 "https://example.com/" DB.visited (Some "t0") None 0 0
               None in
  let c := mkState [row] ["https://example.com/"; "https://example.com/a"]
             None [] [] in
  _worker_loop "t1" c (fun _ => Raised "unreachable")
  = with_queue c ["https://example.com/a"].
Proof.
  intros row c.
  apply (worker_discards_non_pending "t1" c (fun _ => Raised "unreachable")
           "https://example.com/" ["https://example.com/a"]).
  - reflexivity.
  - intros r [= <-]. discriminate.
Defined.

(** X11. [pause_url] leaves the queue entry where it is, and the worker
    throws it away: after a pause of a known URL, the turn that takes
    this URL from the queue changes nothing in the store and fetches
    nothing. *)
Theorem paused_url_is_not_fetched
    (now now' : string) (c : State) (session_get : string -> Fetch)
    (u reason : string) (row : DB.Row) (q : list string) :
  DB.get_url_row (db c) (_normalize_url u) = Some row ->
  pending_queue c = _normalize_url u :: q ->
  let c1 := pause_url now c u reason in
  pending_queue c1 = _normalize_url u :: q /\
  _worker_loop now' c1 session_get = with_queue c1 q.
Proof.
  intros Hrow Hq c1.
  assert (Hq1 : pending_queue c1 = _normalize_url u :: q).
  { unfold c1, pause_url. now rewrite Hrow. }
  split; [exact Hq1|].
  unfold _worker_loop. rewrite Hq1.
  unfold _process_url_with_db_check. cbn [with_queue db].
  assert (H1 : DB.get_url_row (db c1) (_normalize_url u)
               = Some (DB.set_fields now DB.paused None None (Some reason)
                         false false row)).
  { unfold c1, pause_url. rewrite Hrow. cbn [print with_db db].
    now apply DBFacts.get_url_row_update_same. }
  rewrite H1. reflexivity.
Qed.

(** X11 on a pending record at the head of the queue. *)
Lemma paused_url_is_not_fetched_witness :
  let row := DB.mkRow 1 "https://example.com/" DB.pending (Some "t0") None 0 0
               None in
  let c := mkState [row] ["https://example.com/"] None [] [] in
  let c1 := pause_url "t1" c " https://example.com/ " "user-pause" in
  pending_queue c1 = _normalize_url " https://example.com/ " :: [] /\
  _worker_loop "t2" c1 (fun _ => Raised "unreachable") = with_queue c1 [].
Proof.
  intros row c.
  apply (paused_url_is_not_fetched "t1" "t2" c (fun _ => Raised "unreachable")
           " https://example.com/ " "user-pause" row []); reflexivity.
Defined.

(** X12. A URL whose fetch keeps failing is given up after
    [MAX_RETRIES] fetches: a fresh pending record, alone in the queue,
    is in the error state after three failing turns, with
    [retry_count = 3] and the message of the last failure; the queue is
    empty, and further turns do nothing. *)
Theorem three_failures_end_in_error
    (now1 now2 now3 : string) (c : State) (u : string) (row : DB.Row)
    (get1 get2 get3 : string -> Fetch) (m1 m2 m3 : string) :
  pending_queue c = [u] ->
  DB.get_url_row (db c) u = Some row ->
  DB.status row = DB.pending ->
  DB.retry_count row = 0 ->
  failure_of (get1 u) = Some m1 ->
  failure_of (get2 u) = Some m2 ->
  failure_of (get3 u) = Some m3 ->
  let c3 :=
    _worker_loop now3 (_worker_loop now2 (_worker_loop now1 c get1) get2) get3
  in
  DB.get_url_row (db c3) u
  = Some (DB.mkRow (DB.id row) (DB.url row) DB.error (Some now3) (Some m3) 3
            (DB.is_sitemap row) (DB.pause_reason row)) /\
  pending_queue c3 = [] /\
  forall now session_get, _worker_loop now c3 session_get = c3.
Proof.
  intros Hq Hrow Hst Hr F1 F2 F3.
  set (t1 := DB.update_url_status now1 (db c) u DB.pending (Some m1) None None
               false true).
  set (c1 := put (with_db (with_queue c []) t1) u).
  assert (E1 : _worker_loop now1 c get1 = c1).
  { rewrite (failing_turn now1 c u [] row get1 m1 Hq Hrow Hst F1).
    unfold record_outcome. rewrite Hr. reflexivity. }
  assert (Hrow1 : DB.get_url_row (db c1) u
            = Some (DB.set_fields now1 DB.pending (Some m1) None None false true
                      row)).
  { unfold c1, t1. cbn [put with_db with_queue db].
    now apply DBFacts.get_url_row_update_same. }
  set (t2 := DB.update_url_status now2 (db c1) u DB.pending (Some m2) None None
               false true).
  set (c2 := put (with_db (with_queue c1 []) t2) u).
  assert (E2 : _worker_loop now2 c1 get2 = c2).
  { rewrite (failing_turn now2 c1 u [] _ get2 m2 eq_refl Hrow1 eq_refl F2).
    change (DB.retry_count (DB.set_fields now1 DB.pending (Some m1) None None
                              false true row))
      with (DB.retry_count row + 1).
    unfold record_outcome. rewrite Hr. reflexivity. }
  assert (Hrow2 : DB.get_url_row (db c2) u
            = Some (DB.set_fields now2 DB.pending (Some m2) None None false true
                      (DB.set_fields now1 DB.pending (Some m1) None None false
                         true row))).
  { unfold c2, t2. cbn [put with_db with_queue db].
    now apply DBFacts.get_url_row_update_same. }
  set (t3 := DB.update_url_status now3 (db c2) u DB.error (Some m3) None None
               false true).
  set (c3 := with_db (with_queue c2 []) t3).
  assert (E3 : _worker_loop now3 c2 get3 = c3).
  { rewrite (failing_turn now3 c2 u [] _ get3 m3 eq_refl Hrow2 eq_refl F3).
    change (DB.retry_count
              (DB.set_fields now2 DB.pending (Some m2) None None false true
                 (DB.set_fields now1 DB.pending (Some m1) None None false true
                    row)))
      with (DB.retry_count row + 1 + 1).
    unfold record_outcome. rewrite Hr. reflexivity. }
  rewrite E1, E2, E3.
  split; [|split].
  - unfold c3, t3. cbn [with_db db with_queue].
    rewrite (DBFacts.get_url_row_update_same _ _ _ _ _ _ _ _ _ _ Hrow2).
    unfold DB.set_fields. simpl. rewrite Hr. reflexivity.
  - reflexivity.
  - intros now session_get. reflexivity.
Qed.

(** X12 on a seed that times out three times. *)
Lemma three_failures_end_in_error_witness :
  let row := DB.mkRow 1 "https://example.com/" DB.pending (Some "t0") None 0 0
               None in
  let c := mkState [row] ["https://example.com/"] None [] [] in
  let times_out := fun _ : string => Raised "timed out" in
  let c3 :=
    _worker_loop "t3" (_worker_loop "t2" (_worker_loop "t1" c times_out)
                         times_out) times_out in
  DB.get_url_row (db c3) "https://example.com/"
  = Some (DB.mkRow (DB.id row) (DB.url row) DB.error (Some "t3")
            (Some "timed out") 3 (DB.is_sitemap row) (DB.pause_reason row)) /\
  pending_queue c3 = [] /\
  forall now session_get, _worker_loop now c3 session_get = c3.
Proof.
  intros row c times_out.
  apply (three_failures_end_in_error "t1" "t2" "t3" c "https://example.com/"
           row times_out times_out times_out "timed out" "timed out"
           "timed out"); reflexivity.
Defined.




End WorkerFacts.

(* ================================================================== *)
(** ** The queue and the store under a pause by prefix *)
(* ================================================================== *)

Module PauseFacts.
Import Crawler.

Lemma filter_idempotent {A : Type} (f : A -> bool) (l : list A) :
  filter f (filter f l) = filter f l.
Proof.
  induction l as [|a l IH]; simpl; [reflexivity|].
  destruct (f a) eqn:E; simpl; [rewrite E, IH; reflexivity | exact IH].
Qed.

Lemma filter_none {A : Type} (f : A -> bool) (l : list A) :
  filter f (filter (fun a => negb (f a)) l) = [].
Proof.
  induction l as [|a l IH]; simpl; [reflexivity|].
  destruct (f a) eqn:E; simpl; [exact IH | rewrite E; exact IH].
Qed.

(** X14. After [_remove_from_pending_queue] no queued URL starts with the
    prefix, and a second call with the same prefix finds nothing to
    remove: it returns 0 and leaves the queue as it is. *)
Theorem remove_from_pending_queue_twice (c : State) (prefix : string) :
  let first := _remove_from_pending_queue c prefix in
  let second := _remove_from_pending_queue (fst first) prefix in
  (forall u, In u (pending_queue (fst first)) ->
             Str.startswith u prefix = false) /\
  snd second = 0 /\
  pending_queue (fst second) = pending_queue (fst first).
Proof.
  unfold _remove_from_pending_queue.
  rewrite CrawlerFacts.remove_loop_spec. cbn [fst snd with_queue pending_queue app].
  rewrite CrawlerFacts.remove_loop_spec. cbn [fst snd with_queue pending_queue app].
  repeat split.
  - intros u Hu. apply filter_In in Hu as [_ Hu].
    now destruct (Str.startswith u prefix).
  - now rewrite filter_none.
  - apply filter_idempotent.
Qed.

(** X15. After [pause_prefix] nothing under the prefix is left to fetch:
    no record whose URL starts with the prefix is pending, and no queue
    entry starts with it. *)
Theorem pause_prefix_leaves_nothing_to_fetch
    (now : string) (c : State) (prefix reason : string) :
  let c' := pause_prefix now c prefix reason in
  (forall r, In r (db c') -> Str.startswith (DB.url r) prefix = true ->
             DB.status r <> DB.pending) /\
  (forall u, In u (pending_queue c') -> Str.startswith u prefix = false).
Proof.
  unfold pause_prefix, DB.pause_prefix, _remove_from_pending_queue.
  cbn [with_db db pending_queue]. rewrite CrawlerFacts.remove_loop_spec.
  cbn [with_queue print db pending_queue app]. split.
  - intros r' Hin Hp Hst. apply in_map_iff in Hin as (r & Hr & Hin).
    destruct (DB.selected prefix DB.pending r) eqn:E.
    + subst r'. discriminate.
    + subst r'.
      rewrite (PrefixFacts.literal_prefix_selected prefix r Hst Hp) in E.
      discriminate.
  - intros u Hu. apply filter_In in Hu as [_ Hu].
    now destruct (Str.startswith u prefix).
Qed.

End PauseFacts.

(* ================================================================== *)
(** ** Seeding *)
(* ================================================================== *)

Module SeedFacts.
Import Crawler.

(** What [add_seed_url] does to the table and the queue. *)
Lemma add_seed_url_known netloc now c u r :
  _normalize_url u <> "" ->
  DB.get_url_row (db c) (_normalize_url u) = Some r ->
  add_seed_url netloc now c u = print c (UrlAlreadyKnown (_normalize_url u)).
Proof.
  intros Hne Hrow. unfold add_seed_url.
  apply String.eqb_neq in Hne. rewrite Hne.
  rewrite (DBFacts.insert_known_noop _ _ _ _ _ _ Hrow).
  now destruct c.
Qed.

Lemma add_seed_url_makes_known netloc now c u :
  _normalize_url u <> "" ->
  exists r,
    DB.get_url_row (db (add_seed_url netloc now c u)) (_normalize_url u)
    = Some r.
Proof.
  intros Hne. unfold add_seed_url.
  apply String.eqb_neq in Hne. rewrite Hne.
  unfold DB.insert_or_ignore_url.
  destruct (existsb _ (db c)) eqn:E.
  - cbn [print with_db db].
    destruct (DB.get_url_row (db c) (_normalize_url u)) as [r|] eqn:K;
      [now exists r|].
    apply DBFacts.known_iff_row in K. congruence.
  - apply DBFacts.known_iff_row in E. eexists.
    assert (K : forall d so q sd,
              DB.get_url_row
                (db (mkState
                       (db c ++ [DB.mkRow (DB.next_id (db c)) (_normalize_url u)
                                   DB.pending (Some now) None 0
                                   (if _looks_like_sitemap (_normalize_url u)
                                    then 1 else 0) None]) q d sd so))
                (_normalize_url u)
              = Some (DB.mkRow (DB.next_id (db c)) (_normalize_url u)
                        DB.pending (Some now) None 0
                        (if _looks_like_sitemap (_normalize_url u)
                         then 1 else 0) None)).
    { intros. cbn [db]. rewrite DBFacts.get_url_row_app, E.
      unfold DB.get_url_row. simpl. now rewrite String.eqb_refl. }
    destruct (no_main_domain _); [destruct (host_of netloc _)|]; apply K.
Qed.

(** X16. Seeding is idempotent: a second [add_seed_url] with the same
    input inserts no second record, pushes no second queue entry and
    leaves the main domain as the first call left it. *)
Theorem add_seed_url_twice
    (netloc : string -> option string) (now now' : string) (c : State)
    (u : string) :
  let c1 := add_seed_url netloc now c u in
  let c2 := add_seed_url netloc now' c1 u in
  db c2 = db c1 /\
  pending_queue c2 = pending_queue c1 /\
  main_domain c2 = main_domain c1.
Proof.
  intros c1 c2.
  destruct (String.eqb (_normalize_url u) "") eqn:E.
  - unfold c2, add_seed_url. rewrite E. repeat split.
  - apply String.eqb_neq in E.
    destruct (add_seed_url_makes_known netloc now c u E) as [r Hr].
    unfold c2. fold c1 in Hr.
    rewrite (add_seed_url_known netloc now' c1 u r E Hr). repeat split.
Qed.

(** X17. The main domain is set once: a seed never replaces a main
    domain that is already known. *)
Theorem add_seed_url_keeps_main_domain
    (netloc : string -> option string) (now : string) (c : State)
    (u d : string) :
  main_domain c = Some d -> d <> "" ->
  main_domain (add_seed_url netloc now c u) = Some d.
Proof.
  intros Hd Hne. unfold add_seed_url.
  destruct (String.eqb (_normalize_url u) ""); [exact Hd|].
  destruct (DB.insert_or_ignore_url now (db c) (_normalize_url u) _ _)
    as [t [|]]; [|exact Hd].
  unfold no_main_domain. cbn [print put with_db main_domain]. rewrite Hd.
  apply String.eqb_neq in Hne. rewrite Hne. exact Hd.
Qed.

(** X17 on a second seed from another site. *)
Lemma add_seed_url_keeps_main_domain_witness :
  let c := mkState [] [] (Some "example.com") [] [] in
  main_domain (add_seed_url (fun _ => Some "www.other.org") "t0" c
                 "https://www.other.org/")
  = Some "example.com".
Proof.
  intros c.
  apply (add_seed_url_keeps_main_domain (fun _ => Some "www.other.org") "t0" c
           "https://www.other.org/" "example.com").
  - reflexivity.
  - discriminate.
Defined.

End SeedFacts.

(* ================================================================== *)
(** ** Resuming all paused URLs, or those of a domain *)
(* ================================================================== *)

Module ResumeFacts.
Import Crawler.

Section Domain.

Variable netloc : string -> option string.
Variables now domain : string.


Lemma resume_step (c : State) (n : Z) (u : string) :
  resume_if_host_matches netloc now domain (c, n) u
  = if url_in_domain netloc domain u
    then (put (with_db c (DB.update_url_status now (db c) u DB.pending None
                            None None true false)) u, n + 1)
    else (c, n).
Proof.
  unfold resume_if_host_matches, url_in_domain.
  destruct (host_of netloc u) as [h|]; [|reflexivity].
  now destruct (host_matches h domain).
Qed.

Lemma resume_loop (l : list string) (c : State) (n : Z) :
  pending_queue
    (fst (fold_left (resume_if_host_matches netloc now domain) l (c, n)))
  = pending_queue c ++ filter (url_in_domain netloc domain) l /\
  snd (fold_left (resume_if_host_matches netloc now domain) l (c, n))
  = n + Z.of_nat (List.length (filter (url_in_domain netloc domain) l)) /\
  (forall v, ~ In v (filter (url_in_domain netloc domain) l) ->
     DB.get_url_row
       (db (fst (fold_left (resume_if_host_matches netloc now domain) l (c, n))))
       v
     = DB.get_url_row (db c) v) /\
  (forall v, In v (filter (url_in_domain netloc domain) l) -> DB.get_url_row (db c) v <> None ->
     exists r,
       DB.get_url_row
         (db (fst (fold_left (resume_if_host_matches netloc now domain) l
                     (c, n)))) v
       = Some r /\
       DB.status r = DB.pending /\ DB.pause_reason r = None).
Proof.
  revert c n. induction l as [|u l IH]; intros c n; cbn [fold_left filter].
  - cbn [fst snd List.length]. rewrite app_nil_r, Z.add_0_r.
    repeat split; auto. intros v [].
  - rewrite resume_step. destruct (url_in_domain netloc domain u) eqn:Eu; [|apply IH].
    set (c1 := put (with_db c (DB.update_url_status now (db c) u DB.pending
                                 None None None true false)) u).
    destruct (IH c1 (n + 1)) as (Hq & Hn & Hframe & Hres).
    split; [|split; [|split]].
    + rewrite Hq. unfold c1. cbn [put with_db pending_queue].
      now rewrite <- app_assoc.
    + rewrite Hn. cbn [List.length]. rewrite Nat2Z.inj_succ. lia.
    + intros v Hv. rewrite Hframe.
      * unfold c1. cbn [put with_db db].
        apply DBFacts.get_url_row_update_other. intros ->. apply Hv. now left.
      * intros Hin. apply Hv. now right.
    + intros v Hv Hknown.
      assert (Hknown1 : DB.get_url_row (db c1) v <> None).
      { unfold c1. cbn [put with_db db].
        now apply InvariantFacts.update_keeps_known. }
      destruct (in_dec string_dec v (filter (url_in_domain netloc domain) l)) as [Hin|Hnin].
      * now apply Hres.
      * destruct Hv as [<-|Hv]; [|contradiction].
        rewrite (Hframe u Hnin). unfold c1. cbn [put with_db db].
        destruct (DB.get_url_row (db c) u) as [r|] eqn:Hr; [|congruence].
        rewrite (DBFacts.get_url_row_update_same _ _ _ _ _ _ _ _ _ _ Hr).
        eexists. split; [reflexivity|]. now split.
Qed.

(** X18. [resume_paused_for_domain] resumes the paused URLs whose host
    is the domain or a subdomain of it, and those only: it pushes them
    onto the queue in the order of the listing, returns their number,
    sets the record of each to pending with no [pause_reason], and
    leaves the record of every other URL as it is. *)
Theorem resume_paused_for_domain_resumes_matching (c : State) :
  let resumed := filter (url_in_domain netloc domain) (DB.list_paused_urls (db c)) in
  let result := resume_paused_for_domain netloc now c domain in
  let c' := fst (fst result) in
  pending_queue c' = pending_queue c ++ resumed /\
  snd (fst result) = Z.of_nat (List.length resumed) /\
  (forall v, In v resumed ->
             exists r, DB.get_url_row (db c') v = Some r /\
                       DB.status r = DB.pending /\ DB.pause_reason r = None) /\
  (forall v, ~ In v resumed ->
             DB.get_url_row (db c') v = DB.get_url_row (db c) v).
Proof.
  intros resumed result c'.
  pose proof (resume_loop (DB.list_paused_urls (db c)) c 0) as K.
  unfold c', result, resume_paused_for_domain.
  destruct (fold_left _ (DB.list_paused_urls (db c)) (c, 0)) as [c1 n].
  cbn [fst snd] in *. destruct K as (Hq & Hn & Hframe & Hres).
  split; [exact Hq|]. split; [rewrite Hn; reflexivity|]. split.
  - intros v Hv. apply Hres; [exact Hv|].
    apply filter_In in Hv as [Hv _]. unfold DB.list_paused_urls in Hv.
    apply in_map_iff in Hv as (r & <- & Hin).
    apply filter_In in Hin as [Hin _]. now apply InvariantFacts.known_of_In.
  - exact Hframe.
Qed.

End Domain.

(** X19. [resume_all_paused] leaves no record paused: the URLs it
    returns and pushes are the paused URLs of before, the number it
    returns is their number, and afterwards the listing of paused URLs
    is empty. *)
Theorem resume_all_paused_leaves_none_paused (now : string) (c : State) :
  let result := resume_all_paused now c in
  DB.list_paused_urls (db (fst result)) = [] /\
  pending_queue (fst result)
  = pending_queue c ++ DB.list_paused_urls (db c) /\
  snd result = Z.of_nat (List.length (DB.list_paused_urls (db c))).
Proof.
  unfold resume_all_paused, DB.resume_all_paused.
  rewrite PrefixFacts.fold_put. fold (DB.list_paused_urls (db c)).
  assert (K : DB.list_paused_urls
                (map (fun r => if DB.status_eqb (DB.status r) DB.paused
                               then DB.set_pending now r else r) (db c))
              = []).
  { unfold DB.list_paused_urls. rewrite filter_map_swap.
    rewrite (filter_ext _ (fun _ => false)); [now rewrite filter_false|].
    intros r. destruct (DB.status_eqb (DB.status r) DB.paused) eqn:E;
      [reflexivity | exact E]. }
  destruct (DB.list_paused_urls (db c)); cbn [fst snd print db pending_queue];
    repeat split; exact K.
Qed.

End ResumeFacts.

(* ================================================================== *)
(** ** Counts, lookups and updates of the store *)
(* ================================================================== *)

Module StoreFacts.
Import DB.

Lemma counts_are_counts (t : Table) :
  get_status_counts t
  = (count pending t, count visited t, count paused t, count error t).
Proof. reflexivity. Qed.

Lemma count_cons (r : Row) (t : Table) (st : Status) :
  count st (r :: t) = (if status_eqb (status r) st then 1 else 0) + count st t.
Proof.
  unfold count. cbn [filter].
  destruct (status_eqb (status r) st); cbn [List.length];
    [rewrite Nat2Z.inj_succ|]; lia.
Qed.

(** X20. The four numbers of [get_status_counts] add up to the number of
    rows: every record is counted under exactly one status. *)
Theorem status_counts_add_up (t : Table) :
  let '(n_pending, n_visited, n_paused, n_error) := get_status_counts t in
  n_pending + n_visited + n_paused + n_error = Z.of_nat (List.length t).
Proof.
  rewrite counts_are_counts. induction t as [|r t IH].
  - reflexivity.
  - rewrite !count_cons. cbn [List.length]. rewrite Nat2Z.inj_succ.
    destruct (status r); cbn [status_eqb]; lia.
Qed.

(** The effect of the UPDATE of [pause_prefix] on each count. *)
Lemma count_after_pause now (t : Table) (prefix reason : string) (st : Status) :
  count st (fst (pause_prefix now t prefix reason))
  = count st t
    + match st with
      | pending => - snd (pause_prefix now t prefix reason)
      | paused => snd (pause_prefix now t prefix reason)
      | _ => 0
      end.
Proof.
  unfold pause_prefix. cbn [fst snd].
  induction t as [|r t IH]; [now destruct st|].
  cbn [map]. rewrite !count_cons, IH.
  assert (Hsel : Z.of_nat (List.length (filter (selected prefix pending) (r :: t)))
                 = (if selected prefix pending r then 1 else 0)
                   + Z.of_nat (List.length (filter (selected prefix pending) t))).
  { cbn [filter]. destruct (selected prefix pending r); cbn [List.length];
      [rewrite Nat2Z.inj_succ|]; lia. }
  rewrite Hsel.
  change (selected prefix pending r)
    with (Str.like_prefix prefix (url r) && status_eqb (status r) pending).
  destruct (Str.like_prefix prefix (url r)); destruct (status r) eqn:E;
    cbn [andb status_eqb set_paused status]; rewrite ?E;
    destruct st; cbn [status_eqb]; lia.
Qed.

(** X21. [pause_prefix] moves as many records from pending to paused as
    it reports: with [n] the number it returns, the pending count goes
    down by [n], the paused count goes up by [n], and the visited and
    error counts stay. *)
Theorem pause_prefix_moves_counts (now : string) (t : Table)
    (prefix reason : string) :
  let '(n_pending, n_visited, n_paused, n_error) := get_status_counts t in
  let result := pause_prefix now t prefix reason in
  get_status_counts (fst result)
  = (n_pending - snd result, n_visited, n_paused + snd result, n_error).
Proof.
  rewrite (counts_are_counts t). cbv beta iota zeta.
  rewrite counts_are_counts, !count_after_pause.
  repeat f_equal; lia.
Qed.

(** X22. An update of a URL the store does not know is a silent no-op:
    the table is returned as it is. *)
Theorem update_unknown_url_changes_nothing
    (now : string) (t : Table) (u : string) (st : Status)
    (err : option string) (sm : option Z) (reason : option string)
    (clear_pause_reason increment_retry : bool) :
  get_url_row t u = None ->
  update_url_status now t u st err sm reason clear_pause_reason
    increment_retry = t.
Proof.
  unfold get_url_row, update_url_status.
  induction t as [|r t IH]; intros H; cbn [map find] in *; [reflexivity|].
  destruct (String.eqb (url r) u); [discriminate|].
  now rewrite (IH H).
Qed.

(** X22 on a store that knows another URL. *)
Lemma update_unknown_url_changes_nothing_witness :
  let t := [mkRow 1 "https://example.com/" pending (Some "t0") None 0 0 None] in
  update_url_status "t1" t "https://example.com/gone" visited None (Some 0)
    None false false = t.
Proof.
  intros t.
  apply (update_unknown_url_changes_nothing "t1" t "https://example.com/gone"
           visited None (Some 0) None false false).
  reflexivity.
Defined.

(** X23. An update touches the record of its URL only: the lookup of
    any other URL gives the same row before and after, and no row is
    added, removed or given another URL. *)
Theorem update_leaves_other_urls
    (now : string) (t : Table) (u v : string) (st : Status)
    (err : option string) (sm : option Z) (reason : option string)
    (clear_pause_reason increment_retry : bool) :
  v <> u ->
  get_url_row
    (update_url_status now t u st err sm reason clear_pause_reason
       increment_retry) v
  = get_url_row t v /\
  map url
    (update_url_status now t u st err sm reason clear_pause_reason
       increment_retry)
  = map url t.
Proof.
  intros Hne. split; [now apply DBFacts.get_url_row_update_other|].
  unfold update_url_status. rewrite map_map. apply map_ext.
  intros r. now destruct (String.eqb (url r) u).
Qed.

(** X23 on a store with two records. *)
Lemma update_leaves_other_urls_witness :
  let t := [mkRow 1 "https://example.com/" pending (Some "t0") None 0 0 None;
            mkRow 2 "https://example.com/a" pending (Some "t0") None 0 0 None]
  in
  get_url_row
    (update_url_status "t1" t "https://example.com/" error (Some "HTTP 500")
       None None false true) "https://example.com/a"
  = get_url_row t "https://example.com/a" /\
  map url
    (update_url_status "t1" t "https://example.com/" error (Some "HTTP 500")
       None None false true)
  = map url t.
Proof.
  intros t.
  apply (update_leaves_other_urls "t1" t "https://example.com/"
           "https://example.com/a" error (Some "HTTP 500") None None false true).
  discriminate.
Defined.

(** X24. Insert, then look up: after [insert_or_ignore_url] the URL is
    known; the call reports an insertion exactly when the URL was
    unknown before, a row that was there is found unchanged, and the
    lookup of every other URL is as before. *)
Theorem insert_then_lookup
    (now : string) (t : Table) (u : string) (st : Status) (sm : Z) :
  let result := insert_or_ignore_url now t u st sm in
  (exists r, get_url_row (fst result) u = Some r /\ url r = u) /\
  (snd result = true <-> get_url_row t u = None) /\
  (forall r, get_url_row t u = Some r -> get_url_row (fst result) u = Some r) /\
  (forall v, v <> u -> get_url_row (fst result) v = get_url_row t v).
Proof.
  unfold insert_or_ignore_url.
  destruct (existsb _ t) eqn:E; cbn [fst snd].
  - destruct (get_url_row t u) as [r|] eqn:K.
    + split; [exists r; split; [reflexivity | now apply (DBFacts.get_url_row_url t)]|].
      split; [split; discriminate|]. split; auto.
    + apply DBFacts.known_iff_row in K. congruence.
  - apply DBFacts.known_iff_row in E. split; [|split; [|split]].
    + eexists. rewrite DBFacts.get_url_row_app, E. unfold get_url_row. simpl.
      rewrite String.eqb_refl. split; reflexivity.
    + split; auto.
    + intros r K. congruence.
    + intros v Hv. rewrite DBFacts.get_url_row_app.
      destruct (get_url_row t v); [reflexivity|].
      unfold get_url_row. simpl.
      destruct (String.eqb u v) eqn:Euv; [|reflexivity].
      apply String.eqb_eq in Euv. congruence.
Qed.

End StoreFacts.

(* ================================================================== *)
(** ** URL helpers and small functions *)
(* ================================================================== *)

Module HelperFacts.
Import Crawler.

(** *** [LIKE] without wild cards *)

Lemma c_string_app (p q : string) :
  Str.c_string (p ++ q)
  = if Str.has_nul p then Str.c_string p else (p ++ Str.c_string q)%string.
Proof.
  induction p as [|a p IH]; [reflexivity|].
  change (String a p ++ q)%string with (String a (p ++ q)).
  cbn [Str.c_string Str.has_nul].
  destruct (Ascii.eqb a Ascii.zero); [reflexivity|]. cbn [orb].
  rewrite IH. now destruct (Str.has_nul p).
Qed.

Lemma no_wildcard_c_string (p : string) :
  Str.no_wildcard p = true -> Str.no_wildcard (Str.c_string p) = true.
Proof.
  induction p as [|a p IH]; [reflexivity|]. cbn [Str.no_wildcard Str.c_string].
  intros H. apply andb_true_iff in H as [Ha Hp].
  destruct (Ascii.eqb a Ascii.zero); [reflexivity|].
  cbn [Str.no_wildcard]. now rewrite Ha, IH.
Qed.

(** Without wild cards and without a [%] at its end, a pattern matches
    the strings that are equal to it up to case. *)
Lemma like_chars_exact (p s : string) :
  Str.no_wildcard p = true ->
  Str.like_chars p s = String.eqb (Str.sql_lower s) (Str.sql_lower p).
Proof.
  revert s. induction p as [|a p IH]; intros s Hw.
  - now destruct s.
  - cbn [Str.no_wildcard] in Hw.
    apply andb_true_iff in Hw as [Hw Hp].
    apply andb_true_iff in Hw as [Hpc Hus].
    apply negb_true_iff in Hpc, Hus.
    cbn [Str.like_chars Str.sql_lower]. rewrite Hpc, Hus.
    destruct s as [|c s]; [reflexivity|].
    cbn [Str.sql_lower String.eqb orb]. rewrite IH by exact Hp.
    now rewrite (Ascii.eqb_sym (Str.sql_fold a)).
Qed.

(** Without wild cards of its own, a pattern with [%] at its end matches
    the strings that start with it up to case. *)
Lemma like_chars_prefix (p s : string) :
  Str.no_wildcard p = true ->
  Str.like_chars (p ++ "%") s
  = Str.startswith (Str.sql_lower s) (Str.sql_lower p).
Proof.
  revert s. induction p as [|a p IH]; intros s Hw.
  - apply StrFacts.like_chars_percent.
  - cbn [Str.no_wildcard] in Hw.
    apply andb_true_iff in Hw as [Hw Hp].
    apply andb_true_iff in Hw as [Hpc Hus].
    apply negb_true_iff in Hpc, Hus.
    change (String a p ++ "%")%string with (String a (p ++ "%")).
    cbn [Str.like_chars Str.sql_lower]. rewrite Hpc, Hus.
    destruct s as [|c s]; [reflexivity|].
    cbn [Str.sql_lower Str.startswith orb]. now rewrite IH.
Qed.

(** X25. For a prefix that holds neither [%] nor [_], and short enough
    for SQLite to accept the pattern, the match of the store, [url LIKE
    prefix%], is a test on the C strings of the two operands up to the
    case of the ASCII letters. For a prefix without a NUL it is the
    prefix test: it holds exactly when the case-folded URL, cut at its
    first NUL, starts with the case-folded prefix. A NUL in the prefix
    cuts the pattern before its [%]: the match then holds exactly when
    the URL and the prefix, each cut at its first NUL, are equal up to
    case. *)
Theorem like_prefix_without_wildcards (prefix u : string) :
  Str.no_wildcard prefix = true ->
  Str.utf8_length (prefix ++ "%") <= Str.MAX_LIKE_PATTERN_LENGTH ->
  Str.like_prefix prefix u
  = if Str.has_nul prefix
    then String.eqb (Str.sql_lower (Str.c_string u))
           (Str.sql_lower (Str.c_string prefix))
    else Str.startswith (Str.sql_lower (Str.c_string u))
           (Str.sql_lower prefix).
Proof.
  intros Hw _. unfold Str.like_prefix, Str.like. rewrite c_string_app.
  destruct (Str.has_nul prefix).
  - apply like_chars_exact. now apply no_wildcard_c_string.
  - change (Str.c_string "%") with "%"%string. now apply like_chars_prefix.
Qed.

(** X25 on a prefix in capitals. *)
Lemma like_prefix_without_wildcards_witness :
  Str.like_prefix "HTTPS://Example.com/" "https://example.com/a"
  = if Str.has_nul "HTTPS://Example.com/"
    then String.eqb (Str.sql_lower (Str.c_string "https://example.com/a"))
           (Str.sql_lower (Str.c_string "HTTPS://Example.com/"))
    else Str.startswith (Str.sql_lower (Str.c_string "https://example.com/a"))
           (Str.sql_lower "HTTPS://Example.com/").
Proof.
  apply (like_prefix_without_wildcards "HTTPS://Example.com/"
           "https://example.com/a").
  - reflexivity.
  - vm_compute. discriminate.
Defined.

(** A NUL in both operands: the pattern [a\0c%] is matched as [a], the
    URL [a\0b] as [a], and the row is selected although it does not
    start with the prefix; the URL [ab] is not selected. *)
Lemma like_prefix_stops_at_nul :
  let prefix := String "a" (String Ascii.zero "c") in
  let u := String "a" (String Ascii.zero "b") in
  Str.like_prefix prefix u = true /\
  Str.startswith u prefix = false /\
  Str.like_prefix prefix "ab" = false.
Proof. repeat split. Qed.

(** *** Trimming *)

Lemma lstrip_lstrip (s : string) : Str.lstrip (Str.lstrip s) = Str.lstrip s.
Proof.
  induction s as [|c s IH]; [reflexivity|]. simpl.
  destruct (Str.isspace c) eqn:E; [exact IH|]. simpl. now rewrite E.
Qed.

Lemma rstrip_rstrip (s : string) : Str.rstrip (Str.rstrip s) = Str.rstrip s.
Proof.
  induction s as [|c s IH]; [reflexivity|]. cbn [Str.rstrip].
  destruct (Str.rstrip s) as [|d t] eqn:E.
  - destruct (Str.isspace c) eqn:Ec; [reflexivity|].
    cbn [Str.rstrip]. now rewrite Ec.
  - cbn [Str.rstrip]. cbn [Str.rstrip] in IH. now rewrite IH.
Qed.

(** The result of [lstrip] is empty or starts with a character that is
    not white space, and [rstrip] keeps such a first character. *)
Lemma lstrip_of_rstrip_of_lstrip (s : string) :
  Str.lstrip (Str.rstrip (Str.lstrip s)) = Str.rstrip (Str.lstrip s).
Proof.
  induction s as [|c s IH]; [reflexivity|]. cbn [Str.lstrip].
  destruct (Str.isspace c) eqn:E; [exact IH|].
  cbn [Str.rstrip]. destruct (Str.rstrip s) as [|d t].
  - rewrite E. cbn [Str.lstrip]. now rewrite E.
  - cbn [Str.lstrip]. now rewrite E.
Qed.

Lemma strip_strip (s : string) : Str.strip (Str.strip s) = Str.strip s.
Proof.
  unfold Str.strip. now rewrite lstrip_of_rstrip_of_lstrip, rstrip_rstrip.
Qed.

Lemma normalize_is_strip (u : string) : _normalize_url u = Str.strip u.
Proof.
  unfold _normalize_url. destruct (String.eqb (Str.strip u) "") eqn:E.
  - apply String.eqb_eq in E. now rewrite E.
  - now destruct (_ || _).
Qed.

(** X26. [_normalize_url] only trims, and trimming twice is trimming
    once: the function is idempotent, so a URL taken from the store and
    normalized again by [pause_url] or [resume_url] addresses the same
    record. *)
Theorem normalize_url_idempotent (u : string) :
  _normalize_url u = Str.strip u /\
  _normalize_url (_normalize_url u) = _normalize_url u.
Proof.
  split; [apply normalize_is_strip|].
  now rewrite !normalize_is_strip, strip_strip.
Qed.

(** *** Sitemap heuristics *)

Lemma lower_char_idempotent (c : ascii) :
  Str.lower_char (Str.lower_char c) = Str.lower_char c.
Proof. destruct c as [[] [] [] [] [] [] [] []]; reflexivity. Qed.

Lemma lower_idempotent (s : string) : Str.lower (Str.lower s) = Str.lower s.
Proof.
  induction s as [|c s IH]; [reflexivity|]. simpl.
  now rewrite lower_char_idempotent, IH.
Qed.

(** X27. [_looks_like_sitemap] does not depend on the case of letters:
    a URL and its lower-case form are classified alike. *)
Theorem looks_like_sitemap_ignores_case (u : string) :
  _looks_like_sitemap (Str.lower u) = _looks_like_sitemap u.
Proof. unfold _looks_like_sitemap. now rewrite lower_idempotent. Qed.

(** *** The content record *)

Lemma take_length (n : nat) (s : string) : (String.length (Str.take n s) <= n)%nat.
Proof.
  revert s. induction n as [|n IH]; intros [|c s]; simpl; try lia.
  specialize (IH s). lia.
Qed.

Lemma take_is_prefix (n : nat) (s : string) :
  Str.startswith s (Str.take n s) = true.
Proof.
  revert s. induction n as [|n IH]; intros [|c s]; simpl; try reflexivity.
  now rewrite Ascii.eqb_refl, IH.
Qed.

(** X28. The content record of a page carries the URL and the status
    code it was given, and as [content] the beginning of the page text,
    never more than 500 characters of it. *)
Theorem scrape_html_content_is_bounded
    (u : string) (html : HtmlDoc) (status_code : Z) :
  let data := scrape_html u html status_code in
  json_url data = u /\
  json_status_code data = status_code /\
  (String.length (json_content data) <= 500)%nat /\
  Str.startswith (soup_text html) (json_content data) = true.
Proof.
  unfold scrape_html. cbn [json_url json_status_code json_content].
  split; [reflexivity|]. split; [reflexivity|].
  split; [apply take_length | apply take_is_prefix].
Qed.

(** *** Namespaces *)

Lemma before_brace (ns rest : string) :
  Str.contains ns "}" = false ->
  Str.before "}" (ns ++ String "}" rest) = ns.
Proof.
  induction ns as [|a ns IH]; intros H; [reflexivity|].
  cbn [Str.contains Str.startswith] in H.
  apply orb_false_iff in H as [Ha Hns].
  rewrite andb_true_r in Ha. rewrite Ascii.eqb_sym in Ha.
  cbn [append Str.before]. rewrite Ha. now rewrite IH.
Qed.

Lemma string_app_assoc (a b c : string) :
  ((a ++ b) ++ c)%string = (a ++ (b ++ c))%string.
Proof. induction a as [|x a IH]; simpl; [reflexivity | now rewrite IH]. Qed.

(** X29. [_tag_with_ns] carries the namespace of the root over to a
    local name: for a root tag [{ns}name] the result is [{ns}local]. *)
Theorem tag_with_ns_keeps_namespace (ns name local : string) :
  Str.contains ns "}" = false ->
  _tag_with_ns ("{" ++ ns ++ "}" ++ name) local
  = ("{" ++ ns ++ "}" ++ local)%string.
Proof.
  intros H. unfold _tag_with_ns.
  change ("{" ++ ns ++ "}" ++ name)%string
    with (String "{" (ns ++ String "}" name)).
  cbn [Str.startswith Str.before]. rewrite Ascii.eqb_refl. cbn [andb].
  change (Ascii.eqb "{" "}") with false. cbv iota.
  rewrite (before_brace ns name H).
  cbn [append]. f_equal. now rewrite string_app_assoc.
Qed.

(** X29 on the namespace of the sitemap protocol. *)
Lemma tag_with_ns_keeps_namespace_witness :
  _tag_with_ns
    ("{" ++ "http://www.sitemaps.org/schemas/sitemap/0.9" ++ "}" ++ "urlset")
    "loc"
  = ("{" ++ "http://www.sitemaps.org/schemas/sitemap/0.9" ++ "}" ++ "loc")%string.
Proof.
  apply (tag_with_ns_keeps_namespace
           "http://www.sitemaps.org/schemas/sitemap/0.9" "urlset" "loc").
  reflexivity.
Defined.

(** *** Worker count *)

(** X30. [determine_auto_threads] always proposes between 2 and 32
    threads, whatever the machine reports; a machine with 8 processors
    or more gets 32. *)
Theorem determine_auto_threads_bounds (cpu_count : option Z) :
  2 <= determine_auto_threads cpu_count <= 32 /\
  (forall n, cpu_count = Some n -> 8 <= n ->
             determine_auto_threads cpu_count = 32).
Proof.
  unfold determine_auto_threads. split.
  - destruct cpu_count as [n|]; [destruct (n =? 0)|]; lia.
  - intros n -> Hn. destruct (n =? 0) eqn:E; [apply Z.eqb_eq in E|]; lia.
Qed.

End HelperFacts.
